(** * appleloglutgen: the Apple Log to Rec.709 LUT generator of [main.go]

    A shallow embedding of the colour pipeline and of the [.cube] writer,
    and the properties of them that the specification states.

    [float64] arithmetic is kept behind an interface ([Float64]) so that
    every function of [main.go] is written once, operation for operation,
    and read at two instances:
    - [binary64], Rocq's primitive IEEE 754 doubles, where each operation
      is rounded on its own (no fused multiply-add): the program as an
      amd64 build computes it;
    - [R], the real numbers the doubles stand for, where the algebraic
      statements of the specification are made.
    [math.Pow], [fmt.Sprintf] and the Unicode path of [strings.ToLower]
    are library code and enter as interfaces of their own. *)

From Stdlib Require Import ZArith QArith Reals Lra Lia List Bool.
From Stdlib Require Import Ascii String DecimalString.
From Stdlib Require Import Floats.
Import ListNotations.

Set Implicit Arguments.

(** ** The language and its libraries *)

Module Go.

(** *** [int] (64 bits on the targets of the Makefile) *)

Definition int_min : Z := - 2 ^ 63.
Definition int_max : Z := 2 ^ 63 - 1.

Definition wrap_int (z : Z) : Z := (z + 2 ^ 63) mod 2 ^ 64 - 2 ^ 63.

Definition int_add (x y : Z) : Z := wrap_int (x + y).
Definition int_sub (x y : Z) : Z := wrap_int (x - y).

(** [for i := 0; i < n; i++ { s = body i s }].  The guard holds for
    exactly the first [n] values of [i] (none when [n <= 0]), and [i++]
    never leaves the range of [int] because [i < n]. *)
Fixpoint for_from (S : Type) (count : nat) (i : Z) (body : Z -> S -> S) (s : S) : S :=
  match count with
  | O => s
  | Datatypes.S count' => for_from count' (int_add i 1) body (body i s)
  end.

Definition for_lt (S : Type) (n : Z) (body : Z -> S -> S) (s : S) : S :=
  for_from (Z.to_nat n) 0 body s.

(** *** [float64] *)

Class Float64 (F : Type) : Type := {
  lit : Q -> F;              (* an untyped constant, converted to float64 *)
  of_int : Z -> F;           (* the conversion float64(i) *)
  fadd : F -> F -> F;
  fsub : F -> F -> F;
  fmul : F -> F -> F;
  fdiv : F -> F -> F;
  fltb : F -> F -> bool;     (* x < y *)
  feqb : F -> F -> bool;     (* x == y *)
  fmin : F -> F -> F         (* the builtin min *)
}.

Arguments lit {F _} _%_Q.

(** [x > y] is [y < x], also on NaN. *)
Definition fgtb {F} `{Float64 F} (x y : F) : bool := fltb y x.

(** *** package [math] *)

Class Math (F : Type) : Type := {
  Pow : F -> F -> F
}.

(** *** package [fmt] *)

Class Fmt (F : Type) : Type := {
  Sprintf_6f : F -> string   (* the verb %.6f *)
}.

(** The verb [%d]. *)
Definition Sprintf_d (z : Z) : string := NilZero.string_of_int (Z.to_int z).

(** *** package [strings] *)

Definition newline : string := String (ascii_of_nat 10) EmptyString.

(** [strings.Builder]: the text written so far. *)
Definition Builder : Type := string.
Definition WriteString (b : Builder) (s : string) : Builder := (b ++ s)%string.

Fixpoint string_forallb (p : ascii -> bool) (s : string) : bool :=
  match s with
  | EmptyString => true
  | String c s' => p c && string_forallb p s'
  end.

Fixpoint string_map (f : ascii -> ascii) (s : string) : string :=
  match s with
  | EmptyString => EmptyString
  | String c s' => String (f c) (string_map f s')
  end.

Definition is_ascii_byte (c : ascii) : bool := (N_of_ascii c <? 128)%N.
Definition is_upper_byte (c : ascii) : bool :=
  ((65 <=? N_of_ascii c) && (N_of_ascii c <=? 90))%N.
Definition lower_byte (c : ascii) : ascii :=
  if is_upper_byte c then ascii_of_N (N_of_ascii c + 32) else c.

(** What [strings.ToLower] does with a string that holds a byte of
    [0x80] or more: [strings.Map(unicode.ToLower, s)], over the
    library's Unicode tables. *)
Class Unicode : Type := {
  Map_ToLower : string -> string
}.

(** [strings.ToLower]: a string of ASCII bytes only has its letters
    [A]..[Z] moved to [a]..[z]; any other string goes through the
    Unicode tables. *)
Definition ToLower `{Unicode} (s : string) : string :=
  if string_forallb is_ascii_byte s then string_map lower_byte s
  else Map_ToLower s.

End Go.

Import Go.

Declare Scope go_scope.
Delimit Scope go_scope with go.
Infix "+" := fadd : go_scope.
Infix "-" := fsub : go_scope.
Infix "*" := fmul : go_scope.
Infix "/" := fdiv : go_scope.
Infix "<?" := fltb : go_scope.
Infix ">?" := fgtb (at level 70) : go_scope.
Infix "==?" := feqb (at level 70) : go_scope.

(** ** main.go *)

Section Program.

Context {F : Type} `{Float64 F} `{Math F} `{Fmt F} `{Unicode}.

Local Open Scope string_scope.
Local Open Scope go_scope.

(** [type Config struct]. *)
Record Config : Type := mkConfig {
  Size : Z;
  RedTint : F;
  BlueTint : F;
  Output : string;
  Look : string;
  ExposureOffset : F
}.

(** [func (c *Config) setDefaults()]: the receiver after the call.  Each
    [if] tests one field and assigns that field only. *)
Definition setDefaults (c : Config) : Config :=
  let size := if (Size c <=? 0)%Z then 17%Z else Size c in
  let redTint := if RedTint c ==? lit 0 then lit 1.05 else RedTint c in
  let blueTint := if BlueTint c ==? lit 0 then lit 0.95 else BlueTint c in
  let output := if String.eqb (Output c) "" then "output.cube" else Output c in
  let look := if String.eqb (Look c) "" then "none" else Look c in
  let exposureOffset :=
    if ExposureOffset c ==? lit 0 then lit 1.0 else ExposureOffset c in
  mkConfig size redTint blueTint output look exposureOffset.

(** [func appleLogToLinear(x, exposureOffset float64) float64]. *)
Definition appleLogToLinear (x exposureOffset : F) : F :=
  let v := fmin (x * exposureOffset) (lit 1) in
  Pow v (lit 1.5).

(** [func rec2020ToRec709(r, g, b float64) (float64, float64, float64)]. *)
Definition rec2020ToRec709 (r g b : F) : F * F * F :=
  let r709 := lit 1.660 * r - lit 0.587 * g - lit 0.073 * b in
  let g709 := lit (-0.124) * r + lit 1.132 * g - lit 0.008 * b in
  let b709 := lit (-0.018) * r - lit 0.100 * g + lit 1.118 * b in
  let r709 := if r709 <? lit 0 then lit 0 else r709 in
  let g709 := if g709 <? lit 0 then lit 0 else g709 in
  let b709 := if b709 <? lit 0 then lit 0 else b709 in
  let r709 := if r709 >? lit 1 then lit 1 else r709 in
  let g709 := if g709 >? lit 1 then lit 1 else g709 in
  let b709 := if b709 >? lit 1 then lit 1 else b709 in
  (r709, g709, b709).

(** [func rec709OETF(linear float64) float64]. *)
Definition rec709OETF (linear : F) : F :=
  if linear <? lit 0.018 then lit 4.5 * linear
  else lit 1.099 * Pow linear (lit 0.45) - lit 0.099.

(** [func applyTealOrange(r, g, b float64) (float64, float64, float64)]. *)
Definition applyTealOrange (r g b : F) : F * F * F :=
  let lum := lit 0.2126 * r + lit 0.7152 * g + lit 0.0722 * b in
  let '(origR, origG, origB) := (r, g, b) in
  let '(r, g, b) :=
    if lum <? lit 0.5 then
      let rNew := r * lit 0.95 in
      let bNew := b * lit 1.1 in
      (lit 0.7 * origR + lit 0.3 * rNew,
       lit 0.7 * origG + lit 0.3 * origG,
       lit 0.7 * origB + lit 0.3 * bNew)
    else
      let rNew := r * lit 1.1 in
      let bNew := b * lit 0.95 in
      (lit 0.7 * origR + lit 0.3 * rNew,
       lit 0.7 * origG + lit 0.3 * origG,
       lit 0.7 * origB + lit 0.3 * bNew) in
  let r := if r >? lit 1 then lit 1 else r in
  let g := if g >? lit 1 then lit 1 else g in
  let b := if b >? lit 1 then lit 1 else b in
  (r, g, b).

(** [func applyWarmVintage(r, g, b float64) (float64, float64, float64)].
    [0.1*0.5] is a constant expression: the compiler evaluates it
    exactly and converts the product. *)
Definition applyWarmVintage (r g b : F) : F * F * F :=
  let r := r * lit 1.05 in
  let b := b * lit 0.95 in
  let r := lit 0.9 * r + lit (0.1 * 0.5) in
  let g := lit 0.9 * g + lit (0.1 * 0.5) in
  let b := lit 0.9 * b + lit (0.1 * 0.5) in
  let r := if r >? lit 1 then lit 1 else r in
  let g := if g >? lit 1 then lit 1 else g in
  let b := if b >? lit 1 then lit 1 else b in
  (r, g, b).

(** The body of the innermost loop of [generateLUT]: the text written
    for the grid point [(i, j, k)]. *)
Definition writeSample (cfg : Config) (size i j k : Z) (builder : Builder) : Builder :=
  let inR := of_int i / of_int (int_sub size 1) in
  let inG := of_int j / of_int (int_sub size 1) in
  let inB := of_int k / of_int (int_sub size 1) in
  let linR := appleLogToLinear inR (ExposureOffset cfg) in
  let linG := appleLogToLinear inG (ExposureOffset cfg) in
  let linB := appleLogToLinear inB (ExposureOffset cfg) in
  let '(convR, convG, convB) := rec2020ToRec709 linR linG linB in
  let encR := rec709OETF convR in
  let encG := rec709OETF convG in
  let encB := rec709OETF convB in
  let '(encR, encG, encB) :=
    let look := ToLower (Look cfg) in
    if String.eqb look "tealorange" then applyTealOrange encR encG encB
    else if String.eqb look "warmvintage" then applyWarmVintage encR encG encB
    else (encR, encG, encB) in
  WriteString builder
    (Sprintf_6f encR ++ " " ++ Sprintf_6f encG ++ " " ++ Sprintf_6f encB ++ newline).

(** [func generateLUT(cfg Config) string]. *)
Definition generateLUT (cfg : Config) : string :=
  let size := Size cfg in
  let builder : Builder := "" in
  let builder :=
    WriteString builder
      ("# Generated Cinematic LUT for Apple Log to Rec.709 conversion" ++ newline) in
  let builder := WriteString builder ("LUT_3D_SIZE " ++ Sprintf_d size ++ newline) in
  let builder :=
    for_lt size (fun i builder =>
      for_lt size (fun j builder =>
        for_lt size (fun k builder =>
          writeSample cfg size i j k builder) builder) builder) builder in
  builder.

End Program.

Arguments Config F : clear implicits.

(** [func processConfigFile(configPath, outputDir string)], over the
    calls it makes to the operating system and to [encoding/json]; the
    log lines are left out.  [Unmarshal] is [json.Unmarshal] into a zero
    [Config]. *)
Section Batch.

Context {F : Type} `{Float64 F} `{Math F} `{Fmt F} `{Unicode}.

Variable ReadFile : string -> option string.
Variable Unmarshal : string -> option (Config F).
Variable IsAbs : string -> bool.
Variable Join : string -> string -> string.
Variable WriteFile : string -> string -> bool.

Inductive outcome : Type :=
| ReadError
| ParseError
| WriteError (outFileName lutData : string)
| Written (outFileName lutData : string).

Definition processConfigFile (configPath outputDir : string) : outcome :=
  match ReadFile configPath with
  | None => ReadError
  | Some data =>
    match Unmarshal data with
    | None => ParseError
    | Some cfg =>
      let cfg := setDefaults cfg in
      let lutData := generateLUT cfg in
      let outFileName := Output cfg in
      let outFileName :=
        if negb (IsAbs outFileName) then Join outputDir outFileName
        else outFileName in
      if WriteFile outFileName lutData then Written outFileName lutData
      else WriteError outFileName lutData
    end
  end.

End Batch.

(** ** What the proofs use of [float64] comparisons

    Four facts about the constants [0] and [1] (the last one about the
    constant [1.0] of [setDefaults]); both instances below have them. *)
Class Float64Laws (F : Type) `{Float64 F} : Prop := {
  zero_not_below_zero : fltb (lit 0) (lit 0) = false;
  one_not_below_one : fltb (lit 1) (lit 1) = false;
  one_not_below_zero : fltb (lit 1) (lit 0) = false;
  default_exposure_nonzero : feqb (lit 1.0) (lit 0) = false
}.

Arguments Float64Laws F {_}.

(** ** The real-number reading of [float64] *)

Module RealSem.

Local Open Scope R_scope.

Definition Rltb (x y : R) : bool := if Rlt_dec x y then true else false.
Definition Reqb (x y : R) : bool := if Req_dec_T x y then true else false.

(** [math.Pow] on the reals, for a base [x >= 0]: [x^y], with
    [0^y = 0] for [y > 0] and [0^0 = 1].  A negative base with a
    fractional exponent has no real power ([math.Pow] answers NaN); the
    value given here for it is arbitrary and no statement depends on
    it. *)
Definition Pow_R (x y : R) : R :=
  if Rlt_dec 0 x then Rpower x y
  else if Req_dec_T y 0 then 1
  else 0.

#[export] Instance Float64_R : Float64 R := {|
  lit := Q2R;
  of_int := IZR;
  fadd := Rplus;
  fsub := Rminus;
  fmul := Rmult;
  fdiv := Rdiv;
  fltb := Rltb;
  feqb := Reqb;
  fmin := Rmin
|}.

#[export] Instance Math_R : Math R := {| Pow := Pow_R |}.

(** The clamp of the specification: [x] brought into [[0, 1]]. *)
Definition clamp01 (x : R) : R := Rmax 0 (Rmin x 1).

(** The decode of the specification: [v^1.5] for [v = min(x*e, 1)],
    the power [v^1.5] of a [v >= 0] being [v * sqrt v]. *)
Definition decode_spec (x e : R) : R :=
  let v := Rmin (x * e) 1 in v * R_sqrt.sqrt v.

End RealSem.

(** ** IEEE 754 binary64 *)

Module Binary64.

Local Open Scope float_scope.

(** The double nearest to an integer, ties to even: [float64(i)]. *)
Definition nearest (z : Z) : float :=
  SF2Prim (binary_normalize prec emax z 0 false).

(** A decimal constant [n/d] converted to [float64].  Numerator and
    denominator of every constant of the program are exact as doubles,
    and one IEEE division of the two rounds the quotient correctly. *)
Definition lit64 (q : Q) : float :=
  nearest (Qnum q) / nearest (Zpos (Qden q)).

(** The builtin [min] on [float64]: NaN if either argument is, and
    [-0] below [+0]. *)
Definition min64 (x y : float) : float :=
  if is_nan x || is_nan y then nan
  else if x <? y then x
  else if y <? x then y
  else if get_sign x then x else y.

#[export] Instance Float64_binary64 : Float64 float := {|
  lit := lit64;
  of_int := nearest;
  fadd := PrimFloat.add;
  fsub := PrimFloat.sub;
  fmul := PrimFloat.mul;
  fdiv := PrimFloat.div;
  fltb := PrimFloat.ltb;
  feqb := PrimFloat.eqb;
  fmin := min64
|}.

(** *** The verb [%.6f]

    [strconv] prints the exact value of the double, rounded to six
    decimals, ties to even; [fmt] prints NaN and the infinities by
    name. *)

(** The integer nearest to [n/d], ties to even ([0 <= n], [0 < d]). *)
Definition half_even (n d : Z) : Z :=
  let q := (n / d)%Z in
  match (2 * (n mod d) ?= d)%Z with
  | Lt => q
  | Gt => (q + 1)%Z
  | Eq => if Z.even q then q else (q + 1)%Z
  end.

(** [m * 2^e] in millionths, rounded. *)
Definition micros (m : positive) (e : Z) : Z :=
  if (0 <=? e)%Z then (Zpos m * 2 ^ e * 10 ^ 6)%Z
  else half_even (Zpos m * 10 ^ 6) (2 ^ (- e)).

Definition digit (d : Z) : ascii := ascii_of_N (48 + Z.to_N d).

Definition frac6 (n : Z) : string :=
  String (digit (n / 100000 mod 10))
 (String (digit (n / 10000 mod 10))
 (String (digit (n / 1000 mod 10))
 (String (digit (n / 100 mod 10))
 (String (digit (n / 10 mod 10))
 (String (digit (n mod 10)) EmptyString))))).

Definition fixed6 (neg : bool) (n : Z) : string :=
  ((if neg then "-" else "") ++
   Sprintf_d (n / 10 ^ 6) ++ "." ++ frac6 (n mod 10 ^ 6))%string.

Definition FormatFloat_f6 (x : float) : string :=
  match Prim2SF x with
  | S754_nan => "NaN"%string
  | S754_infinity false => "+Inf"%string
  | S754_infinity true => "-Inf"%string
  | S754_zero s => fixed6 s 0
  | S754_finite s m e => fixed6 s (micros m e)
  end.

#[export] Instance Fmt_binary64 : Fmt float := {| Sprintf_6f := FormatFloat_f6 |}.

(** *** [math.Pow]

    The library computes the power numerically; the documentation of
    [math.Pow] fixes it at special arguments.  Those that apply to a
    finite, positive exponent that is not an integer (as [1.5] and
    [0.45] are), in the order the documentation lists them:
    [Pow(1, y) = 1], [Pow(NaN, y) = NaN], [Pow(+-0, y) = +0],
    [Pow(+Inf, y) = +Inf], [Pow(-Inf, y) = Pow(-0, -y) = +Inf], and
    [Pow(x, y) = NaN] for a finite [x < 0]. *)

Definition fractional (y : float) : bool :=
  match Prim2SF y with
  | S754_finite _ m e => (e <? 0)%Z && negb (Zpos m mod 2 ^ (- e) =? 0)%Z
  | _ => false
  end.

Definition Pow_documented (x y : float) : option float :=
  if fractional y && (0 <? y) then
    if x =? 1 then Some 1
    else if is_nan x then Some nan
    else if x =? 0 then Some 0
    else if x =? infinity then Some infinity
    else if x =? neg_infinity then Some infinity
    else if x <? 0 then Some nan
    else None
  else None.

(** A [math.Pow] agrees with its documentation. *)
Definition Pow_agrees (M : Math float) : Prop :=
  forall x y v, Pow_documented x y = Some v -> Pow x y = v.

(** The documented cases alone, NaN standing for every power that the
    library would compute: an inhabitant of [Pow_agrees]. *)
Definition Math_documented : Math float := {|
  Pow := fun x y =>
    match Pow_documented x y with
    | Some v => v
    | None => nan
    end
|}.

(** The Unicode path of [strings.ToLower] left as the identity: every
    look used below is ASCII and never takes it. *)
Definition Unicode_unused : Unicode := {| Map_ToLower := fun s => s |}.

End Binary64.

(** ** The document and its lines *)

Module Cube.

Local Open Scope string_scope.

Definition commentLine : string :=
  "# Generated Cinematic LUT for Apple Log to Rec.709 conversion" ++ newline.

Definition headerLine (size : Z) : string :=
  "LUT_3D_SIZE " ++ Sprintf_d size ++ newline.

(** The text of a list of lines. *)
Definition join (ls : list string) : string := fold_right append "" ls.

(** Where the line of the grid point [(i, j, k)] stands among the data
    lines: red outermost, blue fastest. *)
Definition gridIndex (size i j k : Z) : nat :=
  Z.to_nat (i * size * size + j * size + k).

Section Sample.

Context {F : Type} `{Float64 F} `{Math F} `{Fmt F} `{Unicode}.
Local Open Scope go_scope.

(** [i/(size-1)]. *)
Definition normalize (size i : Z) : F := of_int i / of_int (size - 1).

(** [min(x*e, 1)^1.5]. *)
Definition decode (x e : F) : F := Pow (fmin (x * e) (lit 1)) (lit 1.5).

(** The [switch] of the loop body: the grade function of [main.go] that
    [look] selects. *)
Definition grade (look : string) (c : F * F * F) : F * F * F :=
  let '(r, g, b) := c in
  if String.eqb (ToLower look) "tealorange" then applyTealOrange r g b
  else if String.eqb (ToLower look) "warmvintage" then applyWarmVintage r g b
  else c.

(** The loop body before its [Sprintf]: the functions of [main.go] on
    the grid point [(i, j, k)], in the order the body calls them. *)
Definition sample (cfg : Config F) (i j k : Z) : F * F * F :=
  let e := ExposureOffset cfg in
  let x := normalize (Size cfg) in
  let '(r, g, b) :=
    rec2020ToRec709 (decode (x i) e) (decode (x j) e) (decode (x k) e) in
  grade (Look cfg) (rec709OETF r, rec709OETF g, rec709OETF b).

(** A data line: three values under [%.6f], one space between them,
    a newline after them. *)
Definition dataLine (c : F * F * F) : string :=
  let '(r, g, b) := c in
  Sprintf_6f r ++ " " ++ Sprintf_6f g ++ " " ++ Sprintf_6f b ++ newline.

End Sample.

(** *** A decimal number with exactly six decimals, checked on the text *)

Definition is_digit (c : ascii) : bool :=
  ((48 <=? N_of_ascii c) && (N_of_ascii c <=? 57))%N.

Definition all_digits (s : string) : bool := string_forallb is_digit s.

Fixpoint span_digits (s : string) : string * string :=
  match s with
  | EmptyString => (EmptyString, EmptyString)
  | String c s' =>
    if is_digit c then let '(ds, rest) := span_digits s' in (String c ds, rest)
    else (EmptyString, s)
  end.

(** An optional [-], one digit or more, a point, six digits. *)
Definition is_fixed6 (tok : string) : bool :=
  let body := match tok with
              | String c t => if Ascii.eqb c "-" then t else tok
              | EmptyString => tok
              end in
  let '(ip, rest) := span_digits body in
  negb (String.eqb ip "") &&
  match rest with
  | String c fp =>
    Ascii.eqb c "." && Nat.eqb (String.length fp) 6 && all_digits fp
  | EmptyString => false
  end.

Fixpoint split_on (sep : ascii) (s : string) : list string :=
  match s with
  | EmptyString => [EmptyString]
  | String c s' =>
    if Ascii.eqb c sep then EmptyString :: split_on sep s'
    else match split_on sep s' with
         | l :: ls => String c l :: ls
         | [] => [String c EmptyString]
         end
  end.

Definition is_data_line (l : string) : bool :=
  match split_on " " l with
  | [a; b; c] => is_fixed6 a && is_fixed6 b && is_fixed6 c
  | _ => false
  end.

(** The document of the specification: the comment line, the header
    line, then [size^3] lines of three six-decimal numbers, each line
    closed by a newline, and nothing after the last. *)
Definition is_cube_text (size : Z) (text : string) : bool :=
  match split_on (ascii_of_nat 10) text with
  | comment :: header :: rest =>
    String.eqb (comment ++ newline) commentLine &&
    String.eqb (header ++ newline) (headerLine size) &&
    match rev rest with
    | last :: data =>
      String.eqb last "" &&
      Nat.eqb (List.length data) (Z.to_nat (size ^ 3)) &&
      forallb is_data_line data
    | [] => false
    end
  | _ => false
  end.

End Cube.

Import Cube.

(** ** The stages as the specification words them

    Second definitions, written from section 4 of the specification and
    not from [main.go]; the functions of [main.go] are compared with them
    below. *)

Module Contract.

Section Stages.

Context {F : Type} `{Float64 F} `{Math F} `{Unicode}.
Local Open Scope string_scope.
Local Open Scope go_scope.

(** A value clamped to [[0, 1]]. *)
Definition clamp (x : F) : F :=
  if x <? lit 0 then lit 0 else if x >? lit 1 then lit 1 else x.

(** A value clamped at the upper bound [1] only. *)
Definition clampUpper (x : F) : F := if x >? lit 1 then lit 1 else x.

(** One function on each of the three channels. *)
Definition perChannel (f : F -> F) (c : F * F * F) : F * F * F :=
  let '(r, g, b) := c in (f r, f g, f b).

(** 4.1, log-to-linear decode: [v = min(x*e, 1)], then [v^1.5]. *)
Definition logToLinear (e x : F) : F :=
  let v := fmin (x * e) (lit 1) in Pow v (lit 1.5).

(** 4.2, gamut conversion: the fixed matrix, then each output channel
    clamped to [[0, 1]]. *)
Definition gamut (c : F * F * F) : F * F * F :=
  let '(r, g, b) := c in
  perChannel clamp
    (lit 1.660 * r - lit 0.587 * g - lit 0.073 * b,
     lit (-0.124) * r + lit 1.132 * g - lit 0.008 * b,
     lit (-0.018) * r - lit 0.100 * g + lit 1.118 * b).

(** 4.3, transfer-function encode: [4.5*v] below [0.018],
    [1.099*v^0.45 - 0.099] from there on. *)
Definition encode (v : F) : F :=
  if v <? lit 0.018 then lit 4.5 * v
  else lit 1.099 * Pow v (lit 0.45) - lit 0.099.

(** 4.4: [out = 0.7*orig + 0.3*new]. *)
Definition blend (orig new : F) : F := lit 0.7 * orig + lit 0.3 * new.

(** 4.4, [tealorange]: the luminance of the triple chooses the new red
    and the new blue; red and blue are blended with them, green with
    itself; the upper bound [1] is clamped. *)
Definition tealorange (c : F * F * F) : F * F * F :=
  let '(r, g, b) := c in
  let L := lit 0.2126 * r + lit 0.7152 * g + lit 0.0722 * b in
  let '(newRed, newBlue) :=
    if L <? lit 0.5 then (r * lit 0.95, b * lit 1.1)
    else (r * lit 1.1, b * lit 0.95) in
  perChannel clampUpper (blend r newRed, blend g g, blend b newBlue).

(** 4.4, [warmvintage]: red times [1.05], blue times [0.95], then every
    channel blended 90/10 toward mid-gray, [0.9*channel + 0.1*0.5]; the
    upper bound [1] is clamped. *)
Definition warmvintage (c : F * F * F) : F * F * F :=
  let '(r, g, b) := c in
  let towardGray channel := lit 0.9 * channel + lit (0.1 * 0.5) in
  perChannel clampUpper
    (towardGray (r * lit 1.05), towardGray g, towardGray (b * lit 0.95)).

(** 4.4: the selector is matched without regard to case; a value other
    than the two names passes the triple through. *)
Definition creativeGrade (look : string) (c : F * F * F) : F * F * F :=
  let name := ToLower look in
  if String.eqb name "tealorange" then tealorange c
  else if String.eqb name "warmvintage" then warmvintage c
  else c.

(** 4.5: the coordinate [(i, j, k)] normalized as [i/(size-1)],
    [j/(size-1)], [k/(size-1)] and taken through 4.1, 4.2, 4.3 and 4.4 in
    this order. *)
Definition pipeline (cfg : Config F) (i j k : Z) : F * F * F :=
  let size := Size cfg in
  let normalized n := of_int n / of_int (size - 1) in
  let input := (normalized i, normalized j, normalized k) in
  let linear := perChannel (logToLinear (ExposureOffset cfg)) input in
  let converted := gamut linear in
  let encoded := perChannel encode converted in
  creativeGrade (Look cfg) encoded.

End Stages.

End Contract.

(** The values that the counter of a loop takes. *)
Fixpoint for_indices (count : nat) (i : Z) : list Z :=
  match count with
  | O => []
  | S count' => i :: for_indices count' (int_add i 1)
  end.

Definition loop_indices (n : Z) : list Z := for_indices (Z.to_nat n) 0.

(** The grid points in the order the three loops visit them. *)
Definition gridPoints (size : Z) : list (Z * Z * Z) :=
  flat_map (fun i =>
    flat_map (fun j =>
      map (fun k => (i, j, k)) (loop_indices size))
      (loop_indices size))
    (loop_indices size).

(** The line that [generateLUT] writes for a grid point. *)
Definition codeLine {F : Type} `{Float64 F} `{Math F} `{Fmt F} `{Unicode}
    (cfg : Config F) (p : Z * Z * Z) : string :=
  let '(i, j, k) := p in writeSample cfg (Size cfg) i j k EmptyString.

(** A config with another look. *)
Definition withLook {F : Type} (cfg : Config F) (look : string) : Config F :=
  mkConfig (Size cfg) (RedTint cfg) (BlueTint cfg) (Output cfg) look (ExposureOffset cfg).

(** A coordinate of a corner of the unit cube. *)
Definition corner {F : Type} `{Float64 F} (on : bool) : F :=
  if on then lit 1 else lit 0.

(** ** Concrete configs, on binary64 *)

Module Examples.

Import Binary64.

(** What [setDefaults] leaves of [{"size": 2}] once [look] and
    [exposure_offset] are given. *)
Definition resolved (look : string) (exposure : Q) : Config float :=
  mkConfig 2 (lit 1.05) (lit 0.95) "output.cube" look (lit exposure).

(** [{size: 2, look: "none", exposure_offset: 1.0}]. *)
Definition scenario : Config float := resolved "none" 1.0.

(** [{"size": 2, "exposure_offset": -1}]. *)
Definition negative_exposure : Config float := resolved "none" (-1).

(** [{"size": 2, "look": "sepia"}]. *)
Definition sepia : Config float := resolved "sepia" 1.0.

(** [{"size": -4, "exposure_offset": 0}] as [json.Unmarshal] leaves it. *)
Definition unset : Config float :=
  mkConfig (-4) (lit 0) (lit 0) EmptyString EmptyString (lit 0).

End Examples.

(** The grid points of size 2, in the order of the loops. *)
Definition unit_grid : list (Z * Z * Z) :=
  [(0, 0, 0); (0, 0, 1); (0, 1, 0); (0, 1, 1);
   (1, 0, 0); (1, 0, 1); (1, 1, 0); (1, 1, 1)]%Z.

(** ** The text read back *)

Module Readback.

Import Binary64.

(** [s] holds no byte [c]. *)
Definition free_of (c : ascii) (s : string) : bool :=
  string_forallb (fun a => negb (Ascii.eqb a c)) s.

(** A data line without its newline. *)
Definition dataRow (t : float * float * float) : string :=
  let '(r, g, b) := t in
  (Sprintf_6f r ++ " " ++ Sprintf_6f g ++ " " ++ Sprintf_6f b)%string.

Definition line_feed : ascii := ascii_of_nat 10.

(** A separator: neither a digit, nor a sign, a point or a letter of
    [NaN] and [Inf]. *)
Definition separator (c : ascii) : Prop := c = " "%char \/ c = line_feed.


(** The three values that [generateLUT] writes for a grid point. *)
Definition codeTriple (M : Math float) (U : Unicode) (cfg : Config float)
    (p : Z * Z * Z) : float * float * float :=
  let '(i, j, k) := p in
  let size := Size cfg in
  let e := ExposureOffset cfg in
  let x n := (of_int n / of_int (int_sub size 1))%go in
  let '(r, g, b) :=
    rec2020ToRec709 (appleLogToLinear (x i) e) (appleLogToLinear (x j) e)
                    (appleLogToLinear (x k) e) in
  grade (Look cfg) (rec709OETF r, rec709OETF g, rec709OETF b).


End Readback.

(** ** [func main()] *)

Module Main.

(** [strings.HasSuffix]: the last [len(suffix)] bytes of [s] are
    [suffix]. *)
Definition HasSuffix (s suffix : string) : bool :=
  (String.length suffix <=? String.length s)%nat &&
  String.eqb
    (substring (String.length s - String.length suffix) (String.length suffix) s)
    suffix.

(** [fs.FileInfo], as far as [main] reads it. *)
Record FileInfo : Type := mkFileInfo {
  Name : string;
  IsDir : bool
}.

(** One call that [filepath.Walk] makes to the function it is given:
    the path, what [Lstat] says of it, and the error met on the way, if
    any. *)
Record visit : Type := mkVisit {
  path : string;
  info : FileInfo;
  err : option string
}.

Section Run.

(** The world the program runs in, and what a call of
    [processConfigFile(path, *outputDir)] does to it; the call returns
    nothing. *)
Variable World : Type.
Variable process : string -> World -> World.

(** The function literal that [main] hands to [filepath.Walk]. *)
Definition walkFn (v : visit) (w : World) : World * option string :=
  match err v with
  | Some e => (w, Some e)
  | None =>
    if negb (IsDir (info v)) && HasSuffix (Name (info v)) ".json"
    then (process (path v) w, None)
    else (w, None)
  end.

(** [filepath.Walk] for a function that returns [nil] or an error other
    than [SkipDir] and [SkipAll]: the calls are made in order and the
    first error returned ends the walk and is its result. *)
Fixpoint Walk (fn : visit -> World -> World * option string)
    (visits : list visit) (w : World) : World * option string :=
  match visits with
  | [] => (w, None)
  | v :: rest =>
    match fn v w with
    | (w', Some e) => (w', Some e)
    | (w', None) => Walk fn rest w'
    end
  end.

(** How [main] ends: by returning, or in [log.Fatalf]. *)
Inductive exit : Type :=
| Returned
| Fatal (e : string).

(** [func main()], over [os.MkdirAll] on the output directory and the
    calls of the walk over the config directory. *)
Definition main (MkdirAll : World -> World * option string)
    (visits : list visit) (w : World) : World * exit :=
  match MkdirAll w with
  | (w, Some e) => (w, Fatal e)
  | (w, None) =>
    match Walk walkFn visits w with
    | (w, Some e) => (w, Fatal e)
    | (w, None) => (w, Returned)
    end
  end.

(** The entries that [main] takes for configs. *)
Definition isConfig (v : visit) : bool :=
  negb (IsDir (info v)) && HasSuffix (Name (info v)) ".json".

(** The world after the configs of some visits were processed, in
    order. *)
Definition processAll (visits : list visit) (w : World) : World :=
  fold_left (fun w v => process (path v) w) (filter isConfig visits) w.

End Run.

End Main.


(** ** More concrete inputs *)

Module MoreExamples.

Import RealSem Main.
Local Open Scope string_scope.

(** A [%.6f] on the reals that prints nothing: the statements over the
    reals quantify over the verb and need none in particular. *)
Definition Fmt_blank : Fmt R := {| Sprintf_6f := fun _ => EmptyString |}.

(** [{size: 5, look: "none", exposure_offset: 2}] on the reals. *)
Definition five_points : Config R :=
  mkConfig 5 (lit 1.05) (lit 0.95) "output.cube" "none" (lit 2).

(** A world that only remembers which configs were processed. *)
Definition processed_log (configPath : string) (log : list string) : list string :=
  (log ++ [configPath])%list.

Definition mkdir_ok (log : list string) : list string * option string := (log, None).

Definition mkdir_denied (log : list string) : list string * option string :=
  (log, Some "permission denied").

(** A config directory with two configs, a text file and a directory
    whose name ends in [.json]. *)
Definition small_tree : list visit :=
  [ mkVisit "configs" (mkFileInfo "configs" true) None;
    mkVisit "configs/a.json" (mkFileInfo "a.json" false) None;
    mkVisit "configs/notes.txt" (mkFileInfo "notes.txt" false) None;
    mkVisit "configs/old.json" (mkFileInfo "old.json" true) None;
    mkVisit "configs/old.json/b.json" (mkFileInfo "b.json" false) None ].

Definition unreadable : visit :=
  mkVisit "configs/locked" (mkFileInfo "locked" true) (Some "permission denied").

End MoreExamples.

(** * Properties *)

Unset Implicit Arguments.

(** ** Strings, loops and lists *)

Section Text.

Local Open Scope string_scope.

Lemma append_nil_r (s : string) : s ++ "" = s.
Proof. induction s as [|c s IH]; simpl; [reflexivity | now rewrite IH]. Qed.

Lemma append_assoc (s t u : string) : (s ++ t) ++ u = s ++ (t ++ u).
Proof. induction s as [|c s IH]; simpl; [reflexivity | now rewrite IH]. Qed.

Lemma join_app (l1 l2 : list string) :
  join (l1 ++ l2)%list = join l1 ++ join l2.
Proof.
  induction l1 as [|x l1 IH]; simpl; [reflexivity|].
  now rewrite IH, append_assoc.
Qed.

Lemma join_flat_map (A : Type) (f : A -> list string) (l : list A) :
  join (flat_map f l) = join (map (fun a => join (f a)) l).
Proof.
  induction l as [|a l IH]; simpl; [reflexivity|].
  now rewrite join_app, IH.
Qed.

End Text.

Section Loops.

Variable S : Type.

Lemma for_from_fold (body : Z -> S -> S) (count : nat) :
  forall i s,
    for_from count i body s
    = fold_left (fun s i => body i s) (for_indices count i) s.
Proof.
  induction count as [|count IH]; intros i s; simpl; [reflexivity|].
  apply IH.
Qed.

Lemma for_lt_fold (body : Z -> S -> S) (n : Z) (s : S) :
  for_lt n body s = fold_left (fun s i => body i s) (loop_indices n) s.
Proof. apply for_from_fold. Qed.

Lemma for_indices_length (count : nat) :
  forall i, List.length (for_indices count i) = count.
Proof.
  induction count as [|count IH]; intros i; simpl; [reflexivity|].
  now rewrite IH.
Qed.

End Loops.

Local Open Scope Z_scope.

Lemma wrap_int_id (z : Z) : int_min <= z <= int_max -> wrap_int z = z.
Proof.
  unfold int_min, int_max, wrap_int. intros Hz.
  rewrite Z.mod_small; lia.
Qed.

Lemma for_indices_seq (count : nat) :
  forall i, 0 <= i -> i + Z.of_nat count <= int_max ->
    for_indices count i = map (fun n => i + Z.of_nat n) (seq 0 count).
Proof.
  induction count as [|count IH]; intros i Hi Hmax; [reflexivity|].
  cbn [for_indices seq map]. f_equal; [lia|].
  unfold int_add. rewrite wrap_int_id by (unfold int_min, int_max in *; lia).
  rewrite IH by lia.
  rewrite <- seq_shift, map_map.
  apply map_ext. intros n. lia.
Qed.

Lemma loop_indices_seq (n : Z) :
  n <= int_max -> loop_indices n = map Z.of_nat (seq 0 (Z.to_nat n)).
Proof.
  intros Hn. unfold loop_indices.
  rewrite for_indices_seq by (unfold int_max in *; lia).
  apply map_ext. intros k. lia.
Qed.

Lemma loop_indices_length (n : Z) : List.length (loop_indices n) = Z.to_nat n.
Proof. apply for_indices_length. Qed.

(** ** The generator as a list of lines *)

Section Generator.

Context {F : Type} `{Float64 F} `{Math F} `{Fmt F} `{Unicode}.
Local Open Scope string_scope.

Lemma writeSample_append (cfg : Config F) size i j k b :
  writeSample cfg size i j k b = b ++ writeSample cfg size i j k "".
Proof.
  unfold writeSample, WriteString.
  destruct (rec2020ToRec709 _ _ _) as [[convR convG] convB].
  destruct (if String.eqb _ _ then _ else _) as [[encR encG] encB].
  reflexivity.
Qed.

Lemma fold_left_append (A : Type) (body : A -> string -> string) (g : A -> string) :
  (forall a b, body a b = b ++ g a) ->
  forall l b, fold_left (fun b a => body a b) l b = b ++ join (map g l).
Proof.
  intros Hbody. induction l as [|a l IH]; intros b; simpl.
  - now rewrite append_nil_r.
  - now rewrite IH, Hbody, append_assoc.
Qed.

Lemma map_flat_map (A B C : Type) (f : B -> C) (g : A -> list B) (l : list A) :
  map f (flat_map g l) = flat_map (fun a => map f (g a)) l.
Proof.
  induction l as [|a l IH]; simpl; [reflexivity|].
  now rewrite map_app, IH.
Qed.

Lemma generateLUT_lines (cfg : Config F) :
  generateLUT cfg
  = commentLine ++ headerLine (Size cfg)
    ++ join (map (codeLine cfg) (gridPoints (Size cfg))).
Proof.
  unfold generateLUT, WriteString, gridPoints.
  rewrite for_lt_fold.
  rewrite fold_left_append with
    (g := fun i => join (map (codeLine cfg)
                   (flat_map (fun j => map (fun k => (i, j, k)) (loop_indices (Size cfg)))
                             (loop_indices (Size cfg))))).
  - cbn [append]. rewrite append_assoc.
    unfold commentLine, headerLine. f_equal. f_equal.
    rewrite map_flat_map, join_flat_map. reflexivity.
  - intros i b. rewrite for_lt_fold.
    rewrite fold_left_append with
      (g := fun j => join (map (codeLine cfg)
                     (map (fun k => (i, j, k)) (loop_indices (Size cfg))))).
    + f_equal. rewrite map_flat_map, join_flat_map. reflexivity.
    + intros j b0. rewrite for_lt_fold.
      rewrite fold_left_append with (g := fun k => codeLine cfg (i, j, k)).
      * now rewrite map_map.
      * intros k b1. apply writeSample_append.
Qed.

Lemma codeLine_rendered (cfg : Config F) (p : Z * Z * Z) :
  exists a b c : F, codeLine cfg p = dataLine (a, b, c).
Proof.
  destruct p as [[i j] k]. unfold codeLine, writeSample, WriteString.
  destruct (rec2020ToRec709 _ _ _) as [[convR convG] convB].
  destruct (if String.eqb _ _ then _ else _) as [[encR encG] encB].
  exists encR, encG, encB. reflexivity.
Qed.

Lemma codeLine_sample (cfg : Config F) (i j k : Z) :
  (2 <= Size cfg <= int_max)%Z ->
  codeLine cfg (i, j, k) = dataLine (sample cfg i j k).
Proof.
  intros Hsize.
  unfold codeLine, writeSample, WriteString, sample, grade, normalize, decode,
    appleLogToLinear, dataLine.
  unfold int_sub. rewrite wrap_int_id by (unfold int_min, int_max in *; lia).
  destruct (rec2020ToRec709 _ _ _) as [[convR convG] convB].
  destruct (String.eqb _ "tealorange"); [reflexivity|].
  destruct (String.eqb _ "warmvintage"); reflexivity.
Qed.

End Generator.

Section Grid.
Local Open Scope nat_scope.

Lemma flat_map_length_uniform (A B : Type) (f : A -> list B) (m : nat) (l : list A) :
  (forall a, List.length (f a) = m) ->
  List.length (flat_map f l) = List.length l * m.
Proof.
  intros Hf. induction l as [|a l IH]; simpl; [reflexivity|].
  now rewrite length_app, Hf, IH.
Qed.

Lemma nth_error_flat_map_uniform (A B : Type) (f : A -> list B) (m : nat) :
  (forall a, List.length (f a) = m) ->
  forall (l : list A) (i j : nat) (a : A),
    nth_error l i = Some a -> j < m ->
    nth_error (flat_map f l) (i * m + j) = nth_error (f a) j.
Proof.
  intros Hf. induction l as [|x l IH]; intros i j a Hi Hj.
  - destruct i; discriminate.
  - destruct i as [|i]; simpl in *.
    + injection Hi as ->. apply nth_error_app1. now rewrite Hf.
    + rewrite nth_error_app2 by (rewrite Hf; lia).
      rewrite Hf. replace (m + i * m + j - m) with (i * m + j) by lia.
      now apply IH.
Qed.

Lemma nth_error_indices (n i : nat) :
  i < n -> nth_error (map Z.of_nat (seq 0 n)) i = Some (Z.of_nat i).
Proof.
  intros Hi. rewrite nth_error_map, nth_error_seq.
  apply Nat.ltb_lt in Hi. now rewrite Hi.
Qed.

End Grid.

Lemma gridPoints_length (size : Z) :
  List.length (gridPoints size) = Z.to_nat (size ^ 3).
Proof.
  unfold gridPoints.
  rewrite flat_map_length_uniform with (m := (Z.to_nat size * Z.to_nat size)%nat).
  - rewrite loop_indices_length.
    replace (size ^ 3)%Z with (size * size * size)%Z by ring.
    destruct (Z.le_gt_cases size 0) as [Hneg|Hpos].
    + replace (Z.to_nat size) with 0%nat by lia.
      assert (size * size * size <= 0)%Z by nia. lia.
    + rewrite !Z2Nat.inj_mul by nia. lia.
  - intros i. rewrite flat_map_length_uniform with (m := Z.to_nat size).
    + now rewrite loop_indices_length.
    + intros j. now rewrite length_map, loop_indices_length.
Qed.

Lemma gridPoints_nth (size i j k : Z) :
  (size <= int_max)%Z ->
  (0 <= i < size)%Z -> (0 <= j < size)%Z -> (0 <= k < size)%Z ->
  nth_error (gridPoints size) (gridIndex size i j k) = Some (i, j, k).
Proof.
  intros Hmax Hi Hj Hk. unfold gridPoints, gridIndex.
  rewrite loop_indices_seq by assumption.
  set (n := Z.to_nat size).
  replace (Z.to_nat (i * size * size + j * size + k))
    with (Z.to_nat i * (n * n) + (Z.to_nat j * n + Z.to_nat k))%nat by (subst n; nia).
  rewrite nth_error_flat_map_uniform with (a := i).
  - rewrite nth_error_flat_map_uniform with (a := j).
    + rewrite nth_error_map, nth_error_indices by (subst n; lia).
      cbn. do 2 f_equal. lia.
    + intros a. now rewrite !length_map, length_seq.
    + rewrite nth_error_indices by (subst n; lia). f_equal. lia.
    + subst n; lia.
  - intros a. rewrite flat_map_length_uniform with (m := n).
    + now rewrite length_map, length_seq.
    + intros b. now rewrite !length_map, length_seq.
  - rewrite nth_error_indices by (subst n; lia). f_equal. lia.
  - subst n. nia.
Qed.

(** ** The shape of the document *)

Section Structure.

Context {F : Type} `{Float64 F} `{Math F} `{Fmt F} `{Unicode}.
Local Open Scope string_scope.

Lemma generateLUT_ext (c1 c2 : Config F) :
  Size c1 = Size c2 ->
  (forall p, codeLine c1 p = codeLine c2 p) ->
  generateLUT c1 = generateLUT c2.
Proof.
  intros Hsize Hline. rewrite !generateLUT_lines, Hsize.
  do 3 f_equal. apply map_ext, Hline.
Qed.

Lemma ToLower_none : ToLower "none" = "none".
Proof. reflexivity. Qed.

(** The looks as the comment of [Config] spells them, and one that is not
    a look. *)
Lemma ToLower_looks :
  ToLower "tealOrange" = "tealorange" /\
  ToLower "warmVintage" = "warmvintage" /\
  ToLower "WARMVINTAGE" = "warmvintage" /\
  ToLower "sepia" = "sepia".
Proof. repeat split; reflexivity. Qed.

End Structure.

(** C7.  Two configs that agree on every field but [RedTint] and
    [BlueTint] give the same text: no stage reads the tints. *)
Theorem C7_tints_not_consumed :
  forall (F : Type) (A : Float64 F) (M : Math F) (P : Fmt F) (U : Unicode)
         (c1 c2 : Config F),
    Size c1 = Size c2 -> Output c1 = Output c2 -> Look c1 = Look c2 ->
    ExposureOffset c1 = ExposureOffset c2 ->
    generateLUT c1 = generateLUT c2.
Proof.
  intros F A M P U c1 c2 Hsize _ Hlook Hexp.
  apply generateLUT_ext; [assumption|].
  intros [[i j] k]. unfold codeLine, writeSample.
  now rewrite Hsize, Hlook, Hexp.
Qed.

(** C8.  The look is selected by its lower-case form, which for a look of
    ASCII bytes is the look with [A]..[Z] moved to [a]..[z]: looks with the
    same lower-case form give the same text, and a look whose lower-case
    form is neither [tealorange] nor [warmvintage] gives the text of the
    look [none]. *)
Theorem C8_look_selection :
  forall (F : Type) (A : Float64 F) (M : Math F) (P : Fmt F) (U : Unicode)
         (cfg : Config F),
    (forall look : string,
        string_forallb is_ascii_byte look = true ->
        ToLower look = string_map lower_byte look) /\
    (forall look : string,
        ToLower look = ToLower (Look cfg) ->
        generateLUT (withLook cfg look) = generateLUT cfg) /\
    (ToLower (Look cfg) <> "tealorange"%string ->
     ToLower (Look cfg) <> "warmvintage"%string ->
     generateLUT cfg = generateLUT (withLook cfg "none")).
Proof.
  intros F A M P U cfg. split; [|split].
  - intros look Hascii. unfold ToLower. now rewrite Hascii.
  - intros look Hlook. apply generateLUT_ext; [reflexivity|].
    intros [[i j] k]. unfold codeLine, writeSample, withLook.
    cbn [Size Look ExposureOffset]. now rewrite Hlook.
  - intros Hteal Hwarm. apply generateLUT_ext; [reflexivity|].
    intros [[i j] k]. unfold codeLine, writeSample, withLook.
    cbn [Size Look ExposureOffset]. rewrite ToLower_none.
    apply String.eqb_neq in Hteal, Hwarm. rewrite Hteal, Hwarm.
    reflexivity.
Qed.

(** ** Clamps, on every lawful arithmetic *)

Section Clamps.

Context {F : Type} `{Float64Laws F}.
Local Open Scope go_scope.

Lemma clamp_top (x : F) : ((if x >? lit 1 then lit 1 else x) >? lit 1) = false.
Proof.
  destruct (x >? lit 1) eqn:Hx; [apply one_not_below_one | exact Hx].
Qed.

Lemma clamp_both (x : F) :
  let y := if x <? lit 0 then lit 0 else x in
  let z := if y >? lit 1 then lit 1 else y in
  (z <? lit 0) = false /\ (z >? lit 1) = false.
Proof.
  cbv zeta. split; [|apply clamp_top].
  destruct (x <? lit 0) eqn:Hx.
  - unfold fgtb. rewrite one_not_below_zero. apply zero_not_below_zero.
  - destruct (x >? lit 1); [apply one_not_below_zero | exact Hx].
Qed.

Lemma rec2020ToRec709_range (r g b : F) :
  let '(r709, g709, b709) := rec2020ToRec709 r g b in
  ((r709 <? lit 0) = false /\ (r709 >? lit 1) = false) /\
  ((g709 <? lit 0) = false /\ (g709 >? lit 1) = false) /\
  ((b709 <? lit 0) = false /\ (b709 >? lit 1) = false).
Proof.
  unfold rec2020ToRec709. repeat split; apply clamp_both.
Qed.

Lemma applyTealOrange_top (r g b : F) :
  let '(r', g', b') := applyTealOrange r g b in
  (r' >? lit 1) = false /\ (g' >? lit 1) = false /\ (b' >? lit 1) = false.
Proof.
  unfold applyTealOrange.
  destruct (_ <? lit 0.5); repeat split; apply clamp_top.
Qed.

Lemma applyWarmVintage_top (r g b : F) :
  let '(r', g', b') := applyWarmVintage r g b in
  (r' >? lit 1) = false /\ (g' >? lit 1) = false /\ (b' >? lit 1) = false.
Proof.
  unfold applyWarmVintage. repeat split; apply clamp_top.
Qed.

(** The self-blend of green and the clamp after it, in both branches. *)
Lemma applyTealOrange_green (r g b : F) :
  snd (fst (applyTealOrange r g b))
  = let blend := lit 0.7 * g + lit 0.3 * g in
    if blend >? lit 1 then lit 1 else blend.
Proof.
  unfold applyTealOrange. destruct (_ <? lit 0.5); reflexivity.
Qed.

End Clamps.

(** ** The functions of [main.go] against the stages of the specification *)

Section Refinement.

Context {F : Type} `{Float64Laws F} {M : Math F} {P : Fmt F} {U : Unicode}.
Local Open Scope go_scope.

(** The two [if]s of the code on one channel are one clamp, since [0] is
    not above [1]. *)
Lemma clamp_in_two_steps (x : F) :
  (let y := if x <? lit 0 then lit 0 else x in
   if y >? lit 1 then lit 1 else y) = Contract.clamp x.
Proof.
  cbv zeta. unfold Contract.clamp.
  destruct (x <? lit 0); [|reflexivity].
  unfold fgtb. now rewrite one_not_below_zero.
Qed.

Lemma appleLogToLinear_logToLinear (x e : F) :
  appleLogToLinear x e = Contract.logToLinear e x.
Proof. reflexivity. Qed.

Lemma rec2020ToRec709_gamut (r g b : F) :
  rec2020ToRec709 r g b = Contract.gamut (r, g, b).
Proof.
  unfold rec2020ToRec709, Contract.gamut, Contract.perChannel.
  cbv beta iota zeta. rewrite <- !clamp_in_two_steps. reflexivity.
Qed.

Lemma rec709OETF_encode (v : F) : rec709OETF v = Contract.encode v.
Proof. reflexivity. Qed.

Lemma applyTealOrange_tealorange (r g b : F) :
  applyTealOrange r g b = Contract.tealorange (r, g, b).
Proof.
  unfold applyTealOrange, Contract.tealorange, Contract.perChannel,
    Contract.clampUpper, Contract.blend.
  cbv beta iota zeta. destruct (_ <? lit 0.5); reflexivity.
Qed.

Lemma applyWarmVintage_warmvintage (r g b : F) :
  applyWarmVintage r g b = Contract.warmvintage (r, g, b).
Proof. reflexivity. Qed.

Lemma sample_pipeline (cfg : Config F) (i j k : Z) :
  sample cfg i j k = Contract.pipeline cfg i j k.
Proof.
  unfold sample, Contract.pipeline, Contract.perChannel at 1, normalize, decode.
  cbv beta iota zeta. fold (Contract.logToLinear (ExposureOffset cfg)).
  rewrite rec2020ToRec709_gamut.
  destruct (Contract.gamut _) as [[r g] b].
  unfold grade, Contract.creativeGrade, Contract.perChannel.
  cbv beta iota zeta.
  rewrite applyTealOrange_tealorange, applyWarmVintage_warmvintage.
  reflexivity.
Qed.

Lemma codeLine_pipeline (cfg : Config F) (i j k : Z) :
  (2 <= Size cfg <= int_max)%Z ->
  codeLine cfg (i, j, k) = dataLine (Contract.pipeline cfg i j k).
Proof.
  intros Hsize. rewrite codeLine_sample by assumption.
  now rewrite sample_pipeline.
Qed.

End Refinement.

(** C1.  For a config of size at least 2 (and within [int]), the text is the
    comment line, the header line and [size^3] data lines; the line at
    position [i*size^2 + j*size + k] (red index outermost, blue index
    fastest) renders the grid point [(i/(size-1), j/(size-1), k/(size-1))]
    taken through the stages as the specification words them: the decode
    [min(x*e, 1)^1.5], then the matrix with its clamp to [[0, 1]], then
    the OETF, then the grade that [look] selects.  It holds on every
    arithmetic whose comparisons place [0] and [1] as [Float64Laws]
    says, binary64 and the reals among them. *)
Theorem C1_pipeline_in_nested_order :
  forall (F : Type) (A : Float64 F) (L : Float64Laws F) (M : Math F) (P : Fmt F)
         (U : Unicode) (cfg : Config F),
    (2 <= Size cfg <= int_max)%Z ->
    exists lines : list string,
      generateLUT cfg = (commentLine ++ headerLine (Size cfg) ++ join lines)%string /\
      List.length lines = Z.to_nat (Size cfg ^ 3) /\
      forall i j k : Z,
        (0 <= i < Size cfg)%Z -> (0 <= j < Size cfg)%Z -> (0 <= k < Size cfg)%Z ->
        nth_error lines (gridIndex (Size cfg) i j k)
        = Some (dataLine (Contract.pipeline cfg i j k)).
Proof.
  intros F A L M P U cfg Hsize.
  exists (map (codeLine cfg) (gridPoints (Size cfg))). repeat split.
  - apply generateLUT_lines.
  - now rewrite length_map, gridPoints_length.
  - intros i j k Hi Hj Hk.
    rewrite nth_error_map, gridPoints_nth by lia.
    cbn [option_map]. f_equal. now apply codeLine_pipeline.
Qed.

(** ** Real arithmetic *)

Module RealFacts.

Import RealSem.
Local Open Scope R_scope.

Lemma Rltb_true (x y : R) : Rltb x y = true <-> x < y.
Proof.
  unfold Rltb. destruct (Rlt_dec x y); split; intros;
    (assumption || discriminate || reflexivity || contradiction).
Qed.

Lemma Rltb_false (x y : R) : Rltb x y = false <-> y <= x.
Proof.
  unfold Rltb. destruct (Rlt_dec x y); split; intros; try discriminate; try reflexivity; lra.
Qed.

#[export] Instance Float64Laws_R : Float64Laws R.
Proof.
  split; cbn; unfold Rltb, Reqb, Q2R; cbn;
    (destruct (Rlt_dec _ _) || destruct (Req_dec_T _ _)); (reflexivity || exfalso; lra).
Qed.

Lemma clamp01_range (x : R) : 0 <= clamp01 x <= 1.
Proof. unfold clamp01, Rmax, Rmin. repeat destruct (Rle_dec _ _); lra. Qed.

Lemma clamp_code (x : R) :
  (let y := if Rltb x 0 then 0 else x in if Rltb 1 y then 1 else y) = clamp01 x.
Proof.
  cbv zeta. unfold Rltb, clamp01, Rmax, Rmin.
  repeat (destruct (Rlt_dec _ _) || destruct (Rle_dec _ _)); lra.
Qed.

Lemma lit_0 : Q2R 0 = 0. Proof. unfold Q2R; cbn; lra. Qed.
Lemma lit_1 : Q2R 1 = 1. Proof. unfold Q2R; cbn; lra. Qed.

Lemma rec2020ToRec709_clamp01 (r g b : R) :
  rec2020ToRec709 r g b
  = (clamp01 (1.660 * r - 0.587 * g - 0.073 * b),
     clamp01 (-0.124 * r + 1.132 * g - 0.008 * b),
     clamp01 (-0.018 * r - 0.100 * g + 1.118 * b)).
Proof.
  unfold rec2020ToRec709.
  cbn [lit of_int fadd fsub fmul fdiv fltb feqb fmin Float64_R]. unfold fgtb.
  cbn [lit of_int fadd fsub fmul fdiv fltb feqb fmin Float64_R].
  rewrite lit_0, lit_1.
  rewrite !clamp_code.
  repeat f_equal; unfold Q2R; cbn; lra.
Qed.

Lemma Pow_R_three_halves (v : R) :
  0 <= v -> Pow_R v (Q2R 1.5) = v * R_sqrt.sqrt v.
Proof.
  intros Hv. unfold Pow_R.
  replace (Q2R 1.5) with (1 + / 2) by (unfold Q2R; cbn; lra).
  destruct (Rlt_dec 0 v) as [Hpos|Hzero].
  - now rewrite Rpower_plus, Rpower_1, Rpower_sqrt.
  - replace v with 0 by lra.
    destruct (Req_dec_T (1 + / 2) 0) as [Habs|_]; [lra|].
    now rewrite Rmult_0_l.
Qed.

Lemma three_halves_monotone (v w : R) :
  0 <= v -> v <= w -> v * R_sqrt.sqrt v <= w * R_sqrt.sqrt w.
Proof.
  intros Hv Hvw.
  apply Rmult_le_compat; try assumption.
  - apply sqrt_pos.
  - now apply sqrt_le_1_alt.
Qed.

Lemma appleLogToLinear_spec (x e : R) :
  0 <= x -> 0 <= e -> appleLogToLinear x e = decode_spec x e.
Proof.
  intros Hx He. unfold appleLogToLinear, decode_spec.
  cbn [lit fmul fmin Float64_R Pow Math_R]. rewrite lit_1.
  apply Pow_R_three_halves.
  apply Rmin_glb; [apply Rmult_le_pos; assumption | lra].
Qed.

Lemma applyTealOrange_green_R (r g b : R) :
  snd (fst (applyTealOrange r g b)) = Rmin g 1.
Proof.
  rewrite applyTealOrange_green. cbv zeta. unfold fgtb.
  cbn [lit fadd fmul fltb Float64_R]. rewrite lit_1.
  replace (Q2R 0.7 * g + Q2R 0.3 * g) with g by (unfold Q2R; cbn; lra).
  unfold Rltb, Rmin. destruct (Rlt_dec 1 g), (Rle_dec g 1); lra.
Qed.

Lemma fgtb_one_false (x : R) : fgtb x (lit 1) = false -> x <= 1.
Proof.
  unfold fgtb. cbn [lit fltb Float64_R]. rewrite lit_1. apply Rltb_false.
Qed.

End RealFacts.

Import RealSem RealFacts.
Local Open Scope R_scope.

(** C4.  For every real triple, each channel that the gamut conversion
    returns lies in [[0, 1]] and is the clamp of its matrix row applied to
    the inputs as they were given: no channel is clamped before another
    is computed. *)
Theorem C4_gamut_is_clamped_matrix :
  forall r g b : R,
    let '(r709, g709, b709) := rec2020ToRec709 r g b in
    (0 <= r709 <= 1 /\ 0 <= g709 <= 1 /\ 0 <= b709 <= 1) /\
    r709 = clamp01 (1.660 * r - 0.587 * g - 0.073 * b) /\
    g709 = clamp01 (-0.124 * r + 1.132 * g - 0.008 * b) /\
    b709 = clamp01 (-0.018 * r - 0.100 * g + 1.118 * b).
Proof.
  intros r g b. rewrite rec2020ToRec709_clamp01.
  repeat split; apply clamp01_range.
Qed.

(** C5.  For [x] in [[0, 1]] and [e >= 0] the decode is
    [min(x*e, 1)^1.5] (written [v * sqrt v], and as the real power
    [Rpower v 1.5] where [v > 0]), and for a fixed [e] it does not decrease
    when [x] grows. *)
Theorem C5_decode_power_monotone :
  forall x e : R,
    0 <= x <= 1 -> 0 <= e ->
    appleLogToLinear x e = decode_spec x e /\
    (0 < Rmin (x * e) 1 -> appleLogToLinear x e = Rpower (Rmin (x * e) 1) 1.5) /\
    forall x' : R, 0 <= x' <= 1 -> x <= x' ->
      appleLogToLinear x e <= appleLogToLinear x' e.
Proof.
  intros x e Hx He. split; [apply appleLogToLinear_spec; lra|]. split.
  - intros Hpos. unfold appleLogToLinear.
    cbn [lit fmul fmin Float64_R Pow Math_R]. rewrite lit_1. unfold Pow_R.
    destruct (Rlt_dec 0 (Rmin (x * e) 1)) as [_|Hneg]; [|contradiction].
    f_equal; try (unfold Q2R; cbn; lra).
  - intros x' Hx' Hle.
    rewrite !appleLogToLinear_spec by lra. unfold decode_spec.
    apply three_halves_monotone.
    + apply Rmin_glb; [apply Rmult_le_pos; lra | lra].
    + apply Rle_min_compat_r. apply Rmult_le_compat_r; assumption.
Qed.

(** C6, amended.  The green channel that the tealorange grade returns is
    the self-blend [0.7*g + 0.3*g] clamped above at [1], on every
    arithmetic; on the reals that is [min(g, 1)]: the input green when
    [g <= 1], and [1] when [g > 1]. *)
Theorem C6_green_is_clamped :
  (forall (F : Type) (A : Float64 F) (r g b : F),
      snd (fst (applyTealOrange r g b))
      = let blend := (lit 0.7 * g + lit 0.3 * g)%go in
        if (blend >? lit 1)%go then lit 1 else blend) /\
  (forall r g b : R, snd (fst (applyTealOrange r g b)) = Rmin g 1).
Proof.
  split.
  - intros F A r g b. unfold applyTealOrange. destruct (_ <? lit 0.5)%go; reflexivity.
  - apply applyTealOrange_green_R.
Qed.

(** C9.  On an input triple in [[0, 1]^3] neither the tealorange grade
    nor the warmvintage grade returns a channel above [1]. *)
Theorem C9_grades_bounded_by_one :
  forall r g b : R,
    0 <= r <= 1 -> 0 <= g <= 1 -> 0 <= b <= 1 ->
    let '(rT, gT, bT) := applyTealOrange r g b in
    let '(rW, gW, bW) := applyWarmVintage r g b in
    (rT <= 1 /\ gT <= 1 /\ bT <= 1) /\ (rW <= 1 /\ gW <= 1 /\ bW <= 1).
Proof.
  intros r g b _ _ _.
  pose proof (applyTealOrange_top r g b) as HT.
  pose proof (applyWarmVintage_top r g b) as HW.
  destruct (applyTealOrange r g b) as [[rT gT] bT].
  destruct (applyWarmVintage r g b) as [[rW gW] bW].
  destruct HT as (? & ? & ?), HW as (? & ? & ?).
  repeat split; now apply fgtb_one_false.
Qed.

Local Open Scope Z_scope.

(** ** The verb [%.6f] on binary64 *)

Module FormatFacts.

Import Binary64.
Local Open Scope string_scope.
Local Open Scope Z_scope.

Lemma string_of_uint_digits (d : Decimal.uint) :
  all_digits (NilEmpty.string_of_uint d) = true.
Proof. induction d; simpl; auto. Qed.

Lemma Sprintf_d_digits (z : Z) :
  0 <= z -> all_digits (Sprintf_d z) = true /\ Sprintf_d z <> "".
Proof.
  intros Hz. unfold Sprintf_d.
  destruct z as [|p|p]; [split; [reflexivity | discriminate] | | lia].
  cbn [Z.to_int NilZero.string_of_int NilZero.string_of_uint].
  pose proof (string_of_uint_digits (Pos.to_uint p)) as Hd.
  destruct (Pos.to_uint p); (split; [first [reflexivity | exact Hd] | discriminate]).
Qed.

Lemma span_digits_point (ds fp : string) :
  all_digits ds = true -> span_digits (ds ++ String "." fp) = (ds, String "." fp).
Proof.
  induction ds as [|c ds IH]; intros Hds; [reflexivity|].
  cbn in Hds. apply andb_prop in Hds as [Hc Hds].
  cbn [append span_digits]. now rewrite Hc, IH.
Qed.

Lemma digit_is_digit (d : Z) : 0 <= d < 10 -> is_digit (digit d) = true.
Proof.
  intros Hd.
  assert (d = 0 \/ d = 1 \/ d = 2 \/ d = 3 \/ d = 4 \/ d = 5 \/ d = 6 \/ d = 7
          \/ d = 8 \/ d = 9) as Hcases by lia.
  repeat destruct Hcases as [->|Hcases]; try subst d; reflexivity.
Qed.

Lemma frac6_digits (n : Z) :
  String.length (frac6 n) = 6%nat /\ all_digits (frac6 n) = true.
Proof.
  split; [reflexivity|]. unfold frac6, all_digits. cbn [string_forallb].
  rewrite !digit_is_digit by (apply Z.mod_pos_bound; lia). reflexivity.
Qed.

Lemma first_digit_not_minus (s t : string) :
  all_digits s = true -> s <> "" ->
  match s ++ t with
  | String c u => if Ascii.eqb c "-" then u else s ++ t
  | EmptyString => s ++ t
  end = s ++ t.
Proof.
  destruct s as [|c s]; [congruence|]. intros Hs _.
  cbn in Hs. apply andb_prop in Hs as [Hc _]. cbn [append].
  destruct (Ascii.eqb c "-") eqn:Hminus; [|reflexivity].
  apply Ascii.eqb_eq in Hminus. subst c. discriminate.
Qed.

Lemma is_fixed6_fixed6 (neg : bool) (n : Z) :
  0 <= n -> is_fixed6 (fixed6 neg n) = true.
Proof.
  intros Hn.
  destruct (Sprintf_d_digits (n / 10 ^ 6)) as [Hdigits Hnonempty];
    [apply Z.div_pos; lia|].
  destruct (frac6_digits (n mod 10 ^ 6)) as [Hlen Hfrac].
  assert (is_fixed6 (Sprintf_d (n / 10 ^ 6) ++ "." ++ frac6 (n mod 10 ^ 6)) = true)
    as Hbody.
  { unfold is_fixed6. rewrite first_digit_not_minus by assumption.
    cbn [append]. rewrite span_digits_point by assumption.
    apply String.eqb_neq in Hnonempty. rewrite Hnonempty.
    cbn [negb andb]. rewrite Ascii.eqb_refl, Hlen. exact Hfrac. }
  unfold fixed6. destruct neg; [|exact Hbody].
  unfold is_fixed6 in *. cbn [append]. rewrite Ascii.eqb_refl.
  rewrite first_digit_not_minus in Hbody by assumption. exact Hbody.
Qed.

Lemma half_even_nonneg (n d : Z) : 0 <= n -> 0 < d -> 0 <= half_even n d.
Proof.
  intros Hn Hd. unfold half_even.
  assert (0 <= n / d) by (apply Z.div_pos; lia).
  destruct (2 * (n mod d) ?= d); [destruct (Z.even _)| |]; lia.
Qed.

Lemma micros_nonneg (m : positive) (e : Z) : 0 <= micros m e.
Proof.
  unfold micros. destruct (0 <=? e) eqn:He.
  - apply Z.leb_le in He.
    assert (0 < 2 ^ e) by (apply Z.pow_pos_nonneg; lia). nia.
  - apply Z.leb_gt in He. apply half_even_nonneg; [lia|].
    apply Z.pow_pos_nonneg; lia.
Qed.

Lemma Prim2SF_finite (x : float) :
  is_finite x = true ->
  (exists s, Prim2SF x = S754_zero s) \/ (exists s m e, Prim2SF x = S754_finite s m e).
Proof.
  unfold is_finite, Prim2SF. intros Hfin.
  destruct (is_nan x); [discriminate|].
  destruct (is_zero x); [left; eauto|].
  destruct (is_infinity x); [discriminate|].
  destruct (Z.frexp x) as [r ex].
  destruct (shr_fexp _ _ _ _ _) as [shr e'].
  destruct (shr_m shr); eauto.
Qed.

(** On a finite double, [%.6f] prints an optional sign, the integer
    part, a point and exactly six decimals. *)
Lemma FormatFloat_f6_finite (x : float) :
  is_finite x = true -> is_fixed6 (Sprintf_6f x) = true.
Proof.
  intros Hfin. cbn [Sprintf_6f Fmt_binary64]. unfold FormatFloat_f6.
  destruct (Prim2SF_finite x Hfin) as [[s ->]|(s & m & e & ->)].
  - now apply is_fixed6_fixed6.
  - apply is_fixed6_fixed6, micros_nonneg.
Qed.

End FormatFacts.

(** ** The program on binary64 *)

Import FormatFacts.

Module Binary64Facts.

Import Binary64.

#[export] Instance Float64Laws_binary64 : Float64Laws float.
Proof. split; reflexivity. Qed.

Lemma Math_documented_agrees : Pow_agrees Math_documented.
Proof. intros x y v Hdoc. cbn [Pow Math_documented]. now rewrite Hdoc. Qed.

(** One call of [Pow] on arguments that hold no other call: the
    arguments are computed, and the call is replaced by what the
    documentation says of it. *)
Ltac pow_documented Hagree :=
  match goal with
  | |- context [@Pow float ?M ?x ?y] =>
    lazymatch x with
    | context [@Pow] => fail
    | _ =>
      let x' := eval vm_compute in x in
      let y' := eval vm_compute in y in
      let r := eval vm_compute in (Pow_documented x' y') in
      lazymatch r with
      | Some ?w =>
        change (@Pow float M x y) with (@Pow float M x' y');
        rewrite (Hagree x' y' w (eq_refl (Some w)))
      end
    end
  end.

(** The samples of a small grid, call of [Pow] by call of [Pow]. *)
Ltac eval_samples Hagree :=
  cbn [map]; unfold sample, decode, normalize, grade;
  cbn [Size Look ExposureOffset];
  repeat (repeat pow_documented Hagree; cbv -[Pow]);
  reflexivity.

Section SizeTwo.

Context (M : Math float) (U : Unicode) (Hagree : Pow_agrees M).
Local Open Scope string_scope.

Lemma size_two_lines (cfg : Config float) :
  Size cfg = 2 ->
  generateLUT cfg
  = commentLine ++ headerLine 2
    ++ join (map dataLine
               (map (fun p => let '(i, j, k) := p in sample cfg i j k) unit_grid)).
Proof.
  intros Hsize. rewrite generateLUT_lines, Hsize.
  change (gridPoints 2) with unit_grid.
  rewrite map_map. do 3 f_equal. apply map_ext.
  intros [[i j] k]. apply codeLine_sample. rewrite Hsize.
  unfold int_max. lia.
Qed.

Lemma scenario_samples (redTint blueTint : float) (output : string) :
  map (fun p => let '(i, j, k) := p in
                sample (mkConfig 2 redTint blueTint output "none" (lit 1.0)) i j k)
      unit_grid
  = [(0, 0, 0); (0, 0, 1); (0, 1, 0); (0, 1, 1);
     (1, 0, 0); (1, 0, 1); (1, 1, 0); (1, 1, 1)]%float.
Proof. unfold unit_grid. eval_samples Hagree. Qed.

Lemma negative_exposure_samples :
  map (fun p => let '(i, j, k) := p in sample Examples.negative_exposure i j k)
      unit_grid
  = [(0, 0, 0); (nan, nan, nan); (nan, nan, nan); (nan, nan, nan);
     (nan, nan, nan); (nan, nan, nan); (nan, nan, nan); (nan, nan, nan)]%float.
Proof.
  unfold unit_grid, Examples.negative_exposure, Examples.resolved.
  eval_samples Hagree.
Qed.

Lemma gamut_of_white : rec2020ToRec709 1%float 1%float 1%float = (1, 1, 1)%float.
Proof. reflexivity. Qed.

Lemma OETF_of_one : rec709OETF 1%float = 1%float.
Proof.
  unfold rec709OETF. cbv -[Pow]. pow_documented Hagree. reflexivity.
Qed.

(** The whole text of the scenario config. *)
Lemma scenario_text (redTint blueTint : float) (output : string) :
  generateLUT (mkConfig 2 redTint blueTint output "none" (lit 1.0))
  = commentLine ++ headerLine 2
    ++ join [ "0.000000 0.000000 0.000000" ++ newline;
              "0.000000 0.000000 1.000000" ++ newline;
              "0.000000 1.000000 0.000000" ++ newline;
              "0.000000 1.000000 1.000000" ++ newline;
              "1.000000 0.000000 0.000000" ++ newline;
              "1.000000 0.000000 1.000000" ++ newline;
              "1.000000 1.000000 0.000000" ++ newline;
              "1.000000 1.000000 1.000000" ++ newline ].
Proof.
  rewrite size_two_lines by reflexivity.
  rewrite scenario_samples. reflexivity.
Qed.

(** Its data lines, grid point by grid point. *)
Lemma scenario_codeLines (redTint blueTint : float) (output : string) :
  map (codeLine (mkConfig 2 redTint blueTint output "none" (lit 1.0))) (gridPoints 2)
  = [ "0.000000 0.000000 0.000000" ++ newline;
      "0.000000 0.000000 1.000000" ++ newline;
      "0.000000 1.000000 0.000000" ++ newline;
      "0.000000 1.000000 1.000000" ++ newline;
      "1.000000 0.000000 0.000000" ++ newline;
      "1.000000 0.000000 1.000000" ++ newline;
      "1.000000 1.000000 0.000000" ++ newline;
      "1.000000 1.000000 1.000000" ++ newline ].
Proof.
  set (cfg := mkConfig 2 redTint blueTint output "none" (lit 1.0)).
  transitivity
    (map dataLine (map (fun p => let '(i, j, k) := p in sample cfg i j k) unit_grid)).
  - change (gridPoints 2) with unit_grid. rewrite map_map. apply map_ext.
    intros [[i j] k]. apply codeLine_sample.
    change (2 <= 2 <= 2 ^ 63 - 1). lia.
  - unfold cfg. rewrite scenario_samples. reflexivity.
Qed.

Lemma decode_of_zero : appleLogToLinear 0%float (lit 1.0) = 0%float.
Proof.
  unfold appleLogToLinear. cbv -[Pow]. pow_documented Hagree. reflexivity.
Qed.

Lemma decode_of_one : appleLogToLinear 1%float (lit 1.0) = 1%float.
Proof.
  unfold appleLogToLinear. cbv -[Pow]. pow_documented Hagree. reflexivity.
Qed.

Lemma gamut_of_black : rec2020ToRec709 0%float 0%float 0%float = (0, 0, 0)%float.
Proof. reflexivity. Qed.

Lemma OETF_of_zero : rec709OETF 0%float = 0%float.
Proof. reflexivity. Qed.

(** Below [0] the decode is not a number: [min] clips at [1] only. *)
Lemma decode_below_zero : appleLogToLinear 1%float (lit (-1)) = nan.
Proof.
  unfold appleLogToLinear. cbv -[Pow]. pow_documented Hagree. reflexivity.
Qed.

(** The whole text of [{"size": 2, "exposure_offset": -1}]. *)
Lemma negative_exposure_text :
  generateLUT Examples.negative_exposure
  = commentLine ++ headerLine 2
    ++ join [ "0.000000 0.000000 0.000000" ++ newline;
              "NaN NaN NaN" ++ newline; "NaN NaN NaN" ++ newline;
              "NaN NaN NaN" ++ newline; "NaN NaN NaN" ++ newline;
              "NaN NaN NaN" ++ newline; "NaN NaN NaN" ++ newline;
              "NaN NaN NaN" ++ newline ].
Proof.
  rewrite size_two_lines by reflexivity.
  rewrite negative_exposure_samples. reflexivity.
Qed.

End SizeTwo.

End Binary64Facts.

Import Binary64 Binary64Facts.

(** C3.  For [{size: 2, look: "none", exposureOffset: 1.0}] (whatever the
    tints and the output name) the text is the comment line, the header
    [LUT_3D_SIZE 2] and exactly the 8 data lines listed, one for each grid
    point in the order of the loops; the line of [(0, 0, 0)] reads
    [0.000000 0.000000 0.000000] and the line of [(1, 1, 1)] reads
    [1.000000 1.000000 1.000000]; on the way, the decode, the matrix and
    the OETF each take [0] to [0] and [1] to [1].  [math.Pow] is any
    function that agrees with its documentation. *)
Theorem C3_scenario_size_two :
  forall (M : Math float) (U : Unicode) (redTint blueTint : float) (output : string),
    Pow_agrees M ->
    let cfg := mkConfig 2 redTint blueTint output "none" (lit 1.0) in
    let lines :=
      [ "0.000000 0.000000 0.000000" ++ newline;
        "0.000000 0.000000 1.000000" ++ newline;
        "0.000000 1.000000 0.000000" ++ newline;
        "0.000000 1.000000 1.000000" ++ newline;
        "1.000000 0.000000 0.000000" ++ newline;
        "1.000000 0.000000 1.000000" ++ newline;
        "1.000000 1.000000 0.000000" ++ newline;
        "1.000000 1.000000 1.000000" ++ newline ]%string in
    generateLUT cfg
    = (commentLine ++ ("LUT_3D_SIZE 2" ++ newline) ++ join lines)%string /\
    map (codeLine cfg) (gridPoints 2) = lines /\
    List.length lines = 8%nat /\
    is_cube_text 2 (generateLUT cfg) = true /\
    codeLine cfg (0, 0, 0) = ("0.000000 0.000000 0.000000" ++ newline)%string /\
    codeLine cfg (1, 1, 1) = ("1.000000 1.000000 1.000000" ++ newline)%string /\
    (appleLogToLinear 0%float (ExposureOffset cfg) = 0%float /\
     rec2020ToRec709 0%float 0%float 0%float = (0, 0, 0)%float /\
     rec709OETF 0%float = 0%float) /\
    (appleLogToLinear 1%float (ExposureOffset cfg) = 1%float /\
     rec2020ToRec709 1%float 1%float 1%float = (1, 1, 1)%float /\
     rec709OETF 1%float = 1%float).
Proof.
  intros M U redTint blueTint output Hagree cfg lines.
  pose proof (scenario_text M U Hagree redTint blueTint output) as Htext.
  pose proof (scenario_codeLines M U Hagree redTint blueTint output) as Hlines.
  fold cfg in Htext, Hlines. fold lines in Hlines.
  split; [exact Htext|]. split; [exact Hlines|]. split; [reflexivity|].
  split; [rewrite Htext; reflexivity|].
  change (gridPoints 2) with unit_grid in Hlines.
  unfold unit_grid, lines in Hlines. cbn [map] in Hlines.
  injection Hlines as Hfirst _ _ _ _ _ _ Hlast.
  split; [exact Hfirst|]. split; [exact Hlast|]. split.
  - split; [apply (decode_of_zero M Hagree)|]. split; reflexivity.
  - split; [apply (decode_of_one M Hagree)|].
    split; [reflexivity | apply (OETF_of_one M Hagree)].
Qed.

Lemma C3_witness :
  @generateLUT float _ Math_documented _ Unicode_unused Examples.scenario
  = (commentLine ++ ("LUT_3D_SIZE 2" ++ newline)
     ++ join [ "0.000000 0.000000 0.000000" ++ newline;
               "0.000000 0.000000 1.000000" ++ newline;
               "0.000000 1.000000 0.000000" ++ newline;
               "0.000000 1.000000 1.000000" ++ newline;
               "1.000000 0.000000 0.000000" ++ newline;
               "1.000000 0.000000 1.000000" ++ newline;
               "1.000000 1.000000 0.000000" ++ newline;
               "1.000000 1.000000 1.000000" ++ newline ])%string.
Proof.
  exact (proj1 (C3_scenario_size_two Math_documented Unicode_unused (lit 1.05) (lit 0.95)
                  "output.cube" Math_documented_agrees)).
Defined.

(** Whatever the config, the text is the comment line, the header line
    and [size^3] lines of three values under [%.6f]; a value that is
    finite is printed with exactly six decimals. *)
Lemma generateLUT_document_shape (M : Math float) (U : Unicode) (cfg : Config float) :
  exists lines : list string,
    generateLUT cfg = (commentLine ++ headerLine (Size cfg) ++ join lines)%string /\
    List.length lines = Z.to_nat (Size cfg ^ 3) /\
    Forall (fun line =>
              exists a b c : float,
                line = (Sprintf_6f a ++ " " ++ Sprintf_6f b ++ " "
                        ++ Sprintf_6f c ++ newline)%string /\
                (is_finite a = true -> is_fixed6 (Sprintf_6f a) = true) /\
                (is_finite b = true -> is_fixed6 (Sprintf_6f b) = true) /\
                (is_finite c = true -> is_fixed6 (Sprintf_6f c) = true))
           lines.
Proof.
  exists (map (codeLine cfg) (gridPoints (Size cfg))). repeat split.
  - apply generateLUT_lines.
  - now rewrite length_map, gridPoints_length.
  - apply Forall_map, Forall_forall. intros p _.
    destruct (codeLine_rendered cfg p) as (a & b & c & Hline).
    exists a, b, c. repeat split; try apply FormatFloat_f6_finite. exact Hline.
Qed.

(** C2, where the code departs from it.  On
    [{"size": 2, "exposure_offset": -1}] the decode, which clips at [1]
    only, is handed [-1] and answers NaN, although its comment says
    [clip to [0,1]]; seven of the eight data lines then read
    [NaN NaN NaN], although the comment of the write says
    [6 decimal places]; the text is not the document of the claim.
    [math.Pow] is any function that agrees with its documentation. *)
Theorem C2_negative_exposure_writes_NaN :
  forall (M : Math float) (U : Unicode),
    Pow_agrees M ->
    2 <= Size Examples.negative_exposure /\
    appleLogToLinear 1%float (ExposureOffset Examples.negative_exposure) = nan /\
    generateLUT Examples.negative_exposure
    = (commentLine ++ ("LUT_3D_SIZE 2" ++ newline)
       ++ join [ "0.000000 0.000000 0.000000" ++ newline;
                 "NaN NaN NaN" ++ newline; "NaN NaN NaN" ++ newline;
                 "NaN NaN NaN" ++ newline; "NaN NaN NaN" ++ newline;
                 "NaN NaN NaN" ++ newline; "NaN NaN NaN" ++ newline;
                 "NaN NaN NaN" ++ newline ])%string /\
    is_data_line "NaN NaN NaN" = false /\
    is_cube_text (Size Examples.negative_exposure)
                 (generateLUT Examples.negative_exposure) = false.
Proof.
  intros M U Hagree.
  pose proof (negative_exposure_text M U Hagree) as Htext.
  split; [change (2 <= 2); lia|].
  split; [apply (decode_below_zero M Hagree)|].
  split; [exact Htext|]. split; [reflexivity|].
  rewrite Htext. reflexivity.
Qed.

Lemma C2_witness :
  is_cube_text 2
    (@generateLUT float _ Math_documented _ Unicode_unused Examples.negative_exposure)
  = false.
Proof.
  exact (proj2 (proj2 (proj2 (proj2
           (C2_negative_exposure_writes_NaN Math_documented Unicode_unused
              Math_documented_agrees))))).
Defined.

(** The check accepts the text of the scenario config. *)
Lemma scenario_is_cube_text (M : Math float) (U : Unicode) :
  Pow_agrees M -> is_cube_text 2 (generateLUT Examples.scenario) = true.
Proof.
  intros Hagree. rewrite (size_two_lines M U) by reflexivity.
  unfold Examples.scenario, Examples.resolved.
  rewrite (scenario_samples M U Hagree). reflexivity.
Qed.

Lemma float_neq (x y : float) : Prim2SF x <> Prim2SF y -> x <> y.
Proof. intros Hne Heq. apply Hne. now rewrite Heq. Qed.

(** C6 as stated fails on [(0, 2, 0)]: the green that comes back is [1],
    not [2]. *)
Lemma C6_counterexample_green_above_one :
  snd (fst (applyTealOrange (lit64 0) (lit64 2) (lit64 0))) <> lit64 2.
Proof. apply float_neq. vm_compute. discriminate. Qed.

(** Below [1] the self-blend is the input green up to rounding only:
    on binary64, [0.7*0.1 + 0.3*0.1] is not [0.1], though both print as
    [0.100000]. *)
Lemma green_one_tenth_is_rounded :
  snd (fst (applyTealOrange (lit64 0) (lit64 0.1) (lit64 0))) <> lit64 0.1
  /\ Sprintf_6f (snd (fst (applyTealOrange (lit64 0) (lit64 0.1) (lit64 0))))
     = Sprintf_6f (lit64 0.1).
Proof. split; [apply float_neq; vm_compute; discriminate | reflexivity]. Qed.

(** ** Defaults *)

Section Defaults.

Context {F : Type} `{Float64Laws F}.
Local Open Scope go_scope.

Lemma Size_setDefaults (c : Config F) :
  Size (setDefaults c) = if Size c <=? 0 then 17 else Size c.
Proof. reflexivity. Qed.

Lemma ExposureOffset_setDefaults (c : Config F) :
  ExposureOffset (setDefaults c)
  = if ExposureOffset c ==? lit 0 then lit 1.0 else ExposureOffset c.
Proof. reflexivity. Qed.

Lemma setDefaults_resolved (c : Config F) :
  0 < Size (setDefaults c) /\ (ExposureOffset (setDefaults c) ==? lit 0) = false.
Proof.
  rewrite Size_setDefaults, ExposureOffset_setDefaults. split.
  - destruct (Size c <=? 0) eqn:Hsize; [reflexivity | now apply Z.leb_gt].
  - destruct (ExposureOffset c ==? lit 0) eqn:Hexp;
      [apply default_exposure_nonzero | exact Hexp].
Qed.

End Defaults.

(** C10.  [setDefaults] turns every size [<= 0] into [17] and an exposure
    offset equal to [0] into [1.0]; what it returns has a positive size
    and an exposure offset that is not [0]; and [processConfigFile], once
    the file is read and parsed, rejects nothing: it generates from the
    config that [setDefaults] returns. *)
Theorem C10_defaults_before_generation :
  forall (F : Type) (A : Float64 F) (L : Float64Laws F) (M : Math F) (P : Fmt F)
         (U : Unicode) (c : Config F),
    (Size c <= 0 -> Size (setDefaults c) = 17) /\
    ((ExposureOffset c ==? lit 0)%go = true ->
     ExposureOffset (setDefaults c) = lit 1.0) /\
    (0 < Size (setDefaults c) /\
     (ExposureOffset (setDefaults c) ==? lit 0)%go = false) /\
    forall (ReadFile : string -> option string)
           (Unmarshal : string -> option (Config F))
           (IsAbs : string -> bool) (Join : string -> string -> string)
           (WriteFile : string -> string -> bool)
           (configPath outputDir raw : string),
      ReadFile configPath = Some raw -> Unmarshal raw = Some c ->
      exists outFileName : string,
        let result :=
          processConfigFile ReadFile Unmarshal IsAbs Join WriteFile configPath outputDir in
        result = Written outFileName (generateLUT (setDefaults c)) \/
        result = WriteError outFileName (generateLUT (setDefaults c)).
Proof.
  intros F A L M P U c. repeat split.
  - intros Hsize. rewrite Size_setDefaults.
    apply Z.leb_le in Hsize. now rewrite Hsize.
  - intros Hexp. rewrite ExposureOffset_setDefaults. now rewrite Hexp.
  - apply setDefaults_resolved.
  - apply setDefaults_resolved.
  - intros ReadFile Unmarshal IsAbs Join WriteFile configPath outputDir raw Hread Hparse.
    unfold processConfigFile. rewrite Hread, Hparse.
    match goal with
    | |- context [WriteFile ?name _] => exists name; destruct (WriteFile name _)
    end; [left | right]; reflexivity.
Qed.

Lemma C10_witness :
  Size (setDefaults Examples.unset) = 17 /\
  ExposureOffset (setDefaults Examples.unset) = lit 1.0.
Proof.
  destruct (C10_defaults_before_generation float _ Float64Laws_binary64 Math_documented _
              Unicode_unused Examples.unset) as (Hsize & Hexp & _).
  split; [apply Hsize; cbv; discriminate | apply Hexp; reflexivity].
Defined.

(** ** The clamps on binary64, NaN and infinities included *)

Lemma gamut_range_binary64 (r g b : float) :
  let '(r709, g709, b709) := rec2020ToRec709 r g b in
  (((r709 <? 0) = false /\ (1 <? r709) = false) /\
  ((g709 <? 0) = false /\ (1 <? g709) = false) /\
  ((b709 <? 0) = false /\ (1 <? b709) = false))%float.
Proof. exact (rec2020ToRec709_range r g b). Qed.

Lemma grades_top_binary64 (r g b : float) :
  let '(rT, gT, bT) := applyTealOrange r g b in
  let '(rW, gW, bW) := applyWarmVintage r g b in
  (((1 <? rT) = false /\ (1 <? gT) = false /\ (1 <? bT) = false) /\
   ((1 <? rW) = false /\ (1 <? gW) = false /\ (1 <? bW) = false))%float.
Proof.
  pose proof (applyTealOrange_top r g b) as HT.
  pose proof (applyWarmVintage_top r g b) as HW.
  destruct (applyTealOrange r g b) as [[rT gT] bT].
  destruct (applyWarmVintage r g b) as [[rW gW] bW].
  split; assumption.
Qed.

(** ** The statements at concrete inputs *)

Lemma C1_witness :
  exists lines : list string,
    @generateLUT float _ Math_documented _ Unicode_unused Examples.scenario
    = (commentLine ++ headerLine 2 ++ join lines)%string /\
    List.length lines = 8%nat /\
    nth_error lines (gridIndex 2 1 0 1)
    = Some (dataLine (@Contract.pipeline float _ Math_documented Unicode_unused
                        Examples.scenario 1 0 1)).
Proof.
  destruct (C1_pipeline_in_nested_order float _ Float64Laws_binary64 Math_documented _
              Unicode_unused Examples.scenario) as (lines & Htext & Hlen & Hnth).
  - change (2 <= 2 <= 2 ^ 63 - 1). lia.
  - exists lines. split; [exact Htext|]. split; [exact Hlen|].
    assert (0 <= 1 < Size Examples.scenario) as Hone by (change (0 <= 1 < 2); lia).
    assert (0 <= 0 < Size Examples.scenario) as Hzero by (change (0 <= 0 < 2); lia).
    exact (Hnth 1 0 1 Hone Hzero Hone).
Defined.

Lemma C5_witness :
  (appleLogToLinear (/ 2) 2 = decode_spec (/ 2) 2)%R.
Proof.
  apply (C5_decode_power_monotone (/ 2)%R 2%R); lra.
Defined.

Lemma C7_witness :
  @generateLUT float _ Math_documented _ Unicode_unused Examples.scenario
  = @generateLUT float _ Math_documented _ Unicode_unused
      (mkConfig 2 (lit 2) (lit 3) "output.cube" "none" (lit 1.0)).
Proof.
  apply C7_tints_not_consumed; reflexivity.
Defined.

Lemma C8_witness :
  @generateLUT float _ Math_documented _ Unicode_unused Examples.sepia
  = @generateLUT float _ Math_documented _ Unicode_unused
      (withLook Examples.sepia "none").
Proof.
  apply (C8_look_selection float _ Math_documented _ Unicode_unused Examples.sepia);
    cbv; discriminate.
Defined.

Lemma C9_witness :
  (let '(rT, gT, bT) := applyTealOrange (/ 2) (/ 2) (/ 2) in
   let '(rW, gW, bW) := applyWarmVintage (/ 2) (/ 2) (/ 2) in
   (rT <= 1 /\ gT <= 1 /\ bT <= 1) /\ (rW <= 1 /\ gW <= 1 /\ bW <= 1))%R.
Proof.
  apply (C9_grades_bounded_by_one (/ 2)%R (/ 2)%R (/ 2)%R); lra.
Defined.

(** * Beyond the claims *)

Import Readback.

(** ** The stages on the reals: ranges, breakpoint, fixed points *)

Module RealPipeline.

Import RealSem RealFacts.
Local Open Scope R_scope.

Lemma Rpower_base_one (a : R) : Rpower 1 a = 1.
Proof. unfold Rpower. now rewrite ln_1, Rmult_0_r, exp_0. Qed.

Lemma Rpower_monotone (a x y : R) :
  0 <= a -> 0 < x -> x <= y -> Rpower x a <= Rpower y a.
Proof. intros Ha Hx Hxy. apply Rle_Rpower_l; [assumption | split; assumption]. Qed.

(** [x^0.45] is the twentieth root of [x^9], which turns a bound on it
    into a comparison of rationals. *)
Lemma Rpower_045 (x : R) : 0 < x -> Rpower x 0.45 = Rpower (x ^ 9) (/ 20).
Proof.
  intros Hx. rewrite <- Rpower_pow by assumption. rewrite Rpower_mult.
  f_equal. simpl INR. lra.
Qed.

Lemma twentieth_root (c : R) : 0 < c -> Rpower (c ^ 20) (/ 20) = c.
Proof.
  intros Hc. rewrite <- Rpower_pow by assumption. rewrite Rpower_mult.
  replace (INR 20 * / 20) with 1 by (simpl INR; lra). now apply Rpower_1.
Qed.

Lemma Rpower_045_lower (x c : R) :
  0 < c -> 0 < x -> c ^ 20 <= x ^ 9 -> c <= Rpower x 0.45.
Proof.
  intros Hc Hx Hle. rewrite Rpower_045 by assumption.
  rewrite <- (twentieth_root c Hc).
  apply Rpower_monotone; [lra | now apply pow_lt | assumption].
Qed.

Lemma Rpower_045_upper (x c : R) :
  0 < c -> 0 < x -> x ^ 9 <= c ^ 20 -> Rpower x 0.45 <= c.
Proof.
  intros Hc Hx Hle. rewrite Rpower_045 by assumption.
  rewrite <- (twentieth_root c Hc).
  apply Rpower_monotone; [lra | now apply pow_lt | assumption].
Qed.

Lemma breakpoint_power : 0.1802 / 1.099 <= Rpower 0.018 0.45 <= 0.1803 / 1.099.
Proof.
  split.
  - apply Rpower_045_lower; lra.
  - apply Rpower_045_upper; lra.
Qed.

(** *** [appleLogToLinear] *)

Lemma decode_range (x e : R) : 0 <= x -> 0 <= e -> 0 <= appleLogToLinear x e <= 1.
Proof.
  intros Hx He. rewrite appleLogToLinear_spec by assumption. unfold decode_spec.
  assert (0 <= x * e) as Hxe by (now apply Rmult_le_pos).
  assert (0 <= Rmin (x * e) 1 <= 1) as Hv
      by (split; [apply Rmin_glb; lra | apply Rmin_r]).
  assert (R_sqrt.sqrt (Rmin (x * e) 1) <= 1) as Hs
      by (apply Rle_trans with (R_sqrt.sqrt 1);
          [apply sqrt_le_1_alt; lra | rewrite sqrt_1; lra]).
  pose proof (sqrt_pos (Rmin (x * e) 1)). nra.
Qed.

Lemma decode_saturates (x e : R) :
  0 <= x -> 0 <= e -> 1 <= x * e -> appleLogToLinear x e = 1.
Proof.
  intros Hx He Hsat. rewrite appleLogToLinear_spec by assumption.
  unfold decode_spec. rewrite Rmin_right by assumption. rewrite sqrt_1. lra.
Qed.

(** Black decodes to black under every exposure offset, negative ones
    included: the product is [0] before [math.Pow] sees it. *)
Lemma decode_zero (e : R) : appleLogToLinear 0 e = 0.
Proof.
  unfold appleLogToLinear. cbn [lit fmul fmin Float64_R Pow Math_R].
  rewrite lit_1, Rmult_0_l, Rmin_left by lra.
  rewrite Pow_R_three_halves by lra. lra.
Qed.

(** *** [rec709OETF] *)

Lemma OETF_low (v : R) : v < 0.018 -> rec709OETF v = 4.5 * v.
Proof.
  intros Hv. unfold rec709OETF. cbn [lit fmul fsub fltb Float64_R].
  unfold Rltb. destruct (Rlt_dec v (Q2R 0.018)) as [_|Hge].
  - unfold Q2R; cbn; lra.
  - exfalso. apply Hge. unfold Q2R; cbn; lra.
Qed.

Lemma OETF_high (v : R) :
  0.018 <= v -> rec709OETF v = 1.099 * Rpower v 0.45 - 0.099.
Proof.
  intros Hv. unfold rec709OETF. cbn [lit fmul fsub fltb Float64_R Pow Math_R].
  unfold Rltb. destruct (Rlt_dec v (Q2R 0.018)) as [Hlt|_].
  - exfalso. revert Hlt. unfold Q2R; cbn; lra.
  - unfold Pow_R. destruct (Rlt_dec 0 v) as [_|Hneg]; [|lra].
    replace (Q2R 0.45) with 0.45 by (unfold Q2R; cbn; lra).
    unfold Q2R; cbn; lra.
Qed.

Lemma OETF_at_breakpoint : 0.0812 <= rec709OETF 0.018 <= 0.0813.
Proof. rewrite OETF_high by lra. pose proof breakpoint_power. lra. Qed.

Lemma OETF_monotone_high (x y : R) :
  0.018 <= x -> x <= y -> rec709OETF x <= rec709OETF y.
Proof.
  intros Hx Hxy. rewrite !OETF_high by lra.
  pose proof (Rpower_monotone 0.45 x y). lra.
Qed.

Lemma OETF_monotone (x y : R) : x <= y -> rec709OETF x <= rec709OETF y.
Proof.
  intros Hxy. destruct (Rlt_dec y 0.018) as [Hy|Hy].
  - rewrite !OETF_low by lra. lra.
  - destruct (Rlt_dec x 0.018) as [Hx|Hx].
    + rewrite (OETF_low x) by assumption.
      pose proof (OETF_monotone_high 0.018 y). pose proof OETF_at_breakpoint. lra.
    + apply OETF_monotone_high; lra.
Qed.

(** No value of the OETF lies from [0.081] up to [0.0812]. *)
Lemma OETF_gap (x : R) : rec709OETF x < 0.081 \/ 0.0812 <= rec709OETF x.
Proof.
  destruct (Rlt_dec x 0.018) as [Hx|Hx].
  - left. rewrite OETF_low by assumption. lra.
  - right. pose proof (OETF_monotone_high 0.018 x). pose proof OETF_at_breakpoint. lra.
Qed.

Lemma OETF_zero : rec709OETF 0 = 0.
Proof. rewrite OETF_low by lra. lra. Qed.

Lemma OETF_one : rec709OETF 1 = 1.
Proof. rewrite OETF_high by lra. rewrite Rpower_base_one. lra. Qed.

Lemma OETF_range (v : R) : 0 <= v <= 1 -> 0 <= rec709OETF v <= 1.
Proof.
  intros Hv. split.
  - rewrite <- OETF_zero. apply OETF_monotone; lra.
  - rewrite <- OETF_one. apply OETF_monotone; lra.
Qed.

(** *** [rec2020ToRec709] *)

Lemma clamp01_id (v : R) : 0 <= v <= 1 -> clamp01 v = v.
Proof.
  intros Hv. unfold clamp01, Rmax, Rmin. repeat destruct (Rle_dec _ _); lra.
Qed.

Lemma clamp01_low (v : R) : v <= 0 -> clamp01 v = 0.
Proof.
  intros Hv. unfold clamp01, Rmax, Rmin. repeat destruct (Rle_dec _ _); lra.
Qed.

Lemma clamp01_high (v : R) : 1 <= v -> clamp01 v = 1.
Proof.
  intros Hv. unfold clamp01, Rmax, Rmin. repeat destruct (Rle_dec _ _); lra.
Qed.

Lemma gamut_range (r g b : R) :
  let '(r709, g709, b709) := rec2020ToRec709 r g b in
  0 <= r709 <= 1 /\ 0 <= g709 <= 1 /\ 0 <= b709 <= 1.
Proof. rewrite rec2020ToRec709_clamp01. repeat split; apply clamp01_range. Qed.

Lemma gamut_gray (v : R) : 0 <= v <= 1 -> rec2020ToRec709 v v v = (v, v, v).
Proof.
  intros Hv. rewrite rec2020ToRec709_clamp01.
  (f_equal; [f_equal|]); rewrite <- (clamp01_id v Hv) at 4; f_equal; lra.
Qed.

Lemma gamut_corner (r g b : R) :
  (r = 0 \/ r = 1) -> (g = 0 \/ g = 1) -> (b = 0 \/ b = 1) ->
  rec2020ToRec709 r g b = (r, g, b).
Proof.
  intros [-> | ->] [-> | ->] [-> | ->]; rewrite rec2020ToRec709_clamp01;
    (f_equal; [f_equal|]);
    first [ apply clamp01_low; lra | apply clamp01_high; lra ].
Qed.

(** *** The grades *)

Lemma if_Rltb (A : Type) (x y : R) (a b : A) :
  (if Rltb x y then a else b) = if Rlt_dec x y then a else b.
Proof. unfold Rltb. now destruct (Rlt_dec x y). Qed.

Lemma clamp_top_R (x : R) : (if Rlt_dec 1 x then 1 else x) = Rmin x 1.
Proof. unfold Rmin. destruct (Rlt_dec 1 x), (Rle_dec x 1); lra. Qed.

Lemma applyTealOrange_R (r g b : R) :
  applyTealOrange r g b
  = if Rlt_dec (0.2126 * r + 0.7152 * g + 0.0722 * b) 0.5
    then (Rmin (0.985 * r) 1, Rmin g 1, Rmin (1.03 * b) 1)
    else (Rmin (1.03 * r) 1, Rmin g 1, Rmin (0.985 * b) 1).
Proof.
  unfold applyTealOrange, fgtb. cbn [lit fadd fmul fltb Float64_R].
  replace (Q2R 0.2126 * r + Q2R 0.7152 * g + Q2R 0.0722 * b)
    with (0.2126 * r + 0.7152 * g + 0.0722 * b) by (unfold Q2R; cbn; lra).
  replace (Q2R 0.5) with 0.5 by (unfold Q2R; cbn; lra).
  rewrite if_Rltb.
  destruct (Rlt_dec _ 0.5); cbv beta iota zeta;
    rewrite !if_Rltb, !lit_1, !clamp_top_R;
    (f_equal; [f_equal|]); apply (f_equal (fun x => Rmin x 1));
    unfold Q2R; cbn; lra.
Qed.

Lemma applyTealOrange_unit_cube (r g b : R) :
  0 <= r <= 1 -> 0 <= g <= 1 -> 0 <= b <= 1 ->
  let lum := 0.2126 * r + 0.7152 * g + 0.0722 * b in
  (lum < 0.5 -> applyTealOrange r g b = (0.985 * r, g, Rmin (1.03 * b) 1)) /\
  (0.5 <= lum -> applyTealOrange r g b = (Rmin (1.03 * r) 1, g, 0.985 * b)) /\
  (let '(r', g', b') := applyTealOrange r g b in
   0 <= r' <= 1 /\ 0 <= g' <= 1 /\ 0 <= b' <= 1).
Proof.
  intros Hr Hg Hb lum. rewrite applyTealOrange_R. fold lum.
  assert (Rmin (0.985 * r) 1 = 0.985 * r) as Hr' by (apply Rmin_left; lra).
  assert (Rmin (0.985 * b) 1 = 0.985 * b) as Hb' by (apply Rmin_left; lra).
  assert (Rmin g 1 = g) as Hg' by (apply Rmin_left; lra).
  assert (forall x, 0 <= x -> 0 <= Rmin (1.03 * x) 1 <= 1) as Hboost.
  { intros x Hx. split; [apply Rmin_glb; lra | apply Rmin_r]. }
  rewrite Hr', Hb', Hg'.
  destruct (Rlt_dec lum 0.5) as [Hlum|Hlum]; repeat split;
    try (intros; lra); try (intros; reflexivity); try apply Hboost; lra.
Qed.

Lemma applyWarmVintage_R (r g b : R) :
  applyWarmVintage r g b
  = (Rmin (0.945 * r + 0.05) 1, Rmin (0.9 * g + 0.05) 1, Rmin (0.855 * b + 0.05) 1).
Proof.
  unfold applyWarmVintage, fgtb. cbn [lit fadd fmul fltb Float64_R].
  cbv beta iota zeta. rewrite !if_Rltb, !lit_1, !clamp_top_R.
  (f_equal; [f_equal|]); apply (f_equal (fun x => Rmin x 1));
    unfold Q2R; cbn; lra.
Qed.

Lemma applyWarmVintage_unit_cube (r g b : R) :
  0 <= r <= 1 -> 0 <= g <= 1 -> 0 <= b <= 1 ->
  applyWarmVintage r g b = (0.945 * r + 0.05, 0.9 * g + 0.05, 0.855 * b + 0.05) /\
  (let '(r', g', b') := applyWarmVintage r g b in
   0.05 <= r' <= 0.995 /\ 0.05 <= g' <= 0.95 /\ 0.05 <= b' <= 0.905).
Proof.
  intros Hr Hg Hb. rewrite applyWarmVintage_R.
  rewrite !Rmin_left by lra. split; [reflexivity | lra].
Qed.

Lemma corner_R (on : bool) : @corner R _ on = 0 \/ @corner R _ on = 1.
Proof.
  destruct on; [right; apply lit_1 | left; apply lit_0].
Qed.

Lemma applyWarmVintage_lifted (r g b : R) :
  0 <= r <= 1 -> 0 <= g <= 1 -> 0 <= b <= 1 ->
  let '(r', g', b') := applyWarmVintage r g b in
  0.05 <= r' <= 0.996 /\ 0.05 <= g' <= 0.951 /\ 0.05 <= b' <= 0.906.
Proof.
  intros Hr Hg Hb.
  pose proof (applyWarmVintage_unit_cube r g b Hr Hg Hb) as [_ Hrange].
  destruct (applyWarmVintage r g b) as [[r' g'] b']. lra.
Qed.

End RealPipeline.

Import RealSem RealFacts RealPipeline.
Local Open Scope R_scope.

(** X1.  On the reals, for [x >= 0] and [e >= 0], the decode lies in
    [[0, 1]], and it is [1] as soon as [x*e >= 1]: an exposure offset
    above [1] clips every input from [1/e] on. *)
Theorem X_decode_range_and_saturation :
  forall x e : R,
    0 <= x -> 0 <= e ->
    0 <= appleLogToLinear x e <= 1 /\
    (1 <= x * e -> appleLogToLinear x e = 1).
Proof.
  intros x e Hx He. split; [now apply decode_range | now apply decode_saturates].
Qed.

(** X2.  On the reals the OETF takes [[0, 1]] into [[0, 1]], [0] to [0]
    and [1] to [1]. *)
Theorem X_OETF_unit_interval :
  forall v : R,
    0 <= v <= 1 ->
    0 <= rec709OETF v <= 1 /\ rec709OETF 0 = 0 /\ rec709OETF 1 = 1.
Proof.
  intros v Hv. split; [now apply OETF_range | split; [apply OETF_zero | apply OETF_one]].
Qed.

(** X3.  On the reals the OETF never decreases, the breakpoint
    included. *)
Theorem X_OETF_monotone :
  forall x y : R, x <= y -> rec709OETF x <= rec709OETF y.
Proof. exact OETF_monotone. Qed.

(** X4.  On the reals the OETF jumps at its breakpoint: for an input
    [>= 0] the value is either under [0.081], where the branch [4.5*v]
    ends, or at least [0.0812], and at [0.018] it lies between [0.0812]
    and [0.0813]; no value in between is ever returned. *)
Theorem X_OETF_jump_at_breakpoint :
  forall x : R,
    0 <= x ->
    (rec709OETF x < 0.081 \/ 0.0812 <= rec709OETF x) /\
    0.0812 <= rec709OETF 0.018 <= 0.0813.
Proof.
  intros x _. split; [apply OETF_gap | apply OETF_at_breakpoint].
Qed.

(** X5.  The gamut conversion returns each of the eight corners of the
    unit cube as it was given, on binary64 bit for bit and on the reals:
    the clamp brings the primaries and the secondaries back, and black
    and white pass unclamped. *)
Theorem X_gamut_fixes_corners :
  forall red green blue : bool,
    @rec2020ToRec709 float _ (corner red) (corner green) (corner blue)
    = (corner red, corner green, corner blue) /\
    @rec2020ToRec709 R _ (corner red) (corner green) (corner blue)
    = (corner red, corner green, corner blue).
Proof.
  intros red green blue. split.
  - destruct red, green, blue; reflexivity.
  - apply gamut_corner; apply corner_R.
Qed.

(** X7.  On the reals and on [[0, 1]^3] the warmvintage grade lifts
    black and lowers white: no channel comes out below [0.05], red stays
    under [0.996], green under [0.951] and blue under [0.906], so that
    none of its three clamps fires. *)
Theorem X_warmvintage_on_unit_cube :
  forall r g b : R,
    0 <= r <= 1 -> 0 <= g <= 1 -> 0 <= b <= 1 ->
    let '(r', g', b') := applyWarmVintage r g b in
    0.05 <= r' <= 0.996 /\ 0.05 <= g' <= 0.951 /\ 0.05 <= b' <= 0.906.
Proof. exact applyWarmVintage_lifted. Qed.

(** X8.  On the reals, whatever linear triple enters the gamut
    conversion and whatever the look, every channel that leaves the grade
    lies in [[0, 1]]. *)
Theorem X_encoded_and_graded_in_unit_cube :
  forall (U : Unicode) (look : string) (r g b : R),
    let '(convR, convG, convB) := rec2020ToRec709 r g b in
    let '(outR, outG, outB) :=
      grade look (rec709OETF convR, rec709OETF convG, rec709OETF convB) in
    0 <= outR <= 1 /\ 0 <= outG <= 1 /\ 0 <= outB <= 1.
Proof.
  intros U look r g b.
  pose proof (gamut_range r g b) as Hgamut.
  destruct (rec2020ToRec709 r g b) as [[convR convG] convB].
  destruct Hgamut as (HR & HG & HB).
  apply OETF_range in HR, HG, HB.
  unfold grade.
  destruct (String.eqb _ "tealorange").
  - apply (applyTealOrange_unit_cube _ _ _ HR HG HB).
  - destruct (String.eqb _ "warmvintage"); [|repeat split; lra].
    pose proof (applyWarmVintage_unit_cube _ _ _ HR HG HB) as (_ & Hwarm).
    destruct (applyWarmVintage _ _ _) as [[outR outG] outB]. lra.
Qed.

Section Ungraded.

Context (P : Fmt R) (U : Unicode).

Lemma ungraded_sample (cfg : Config R) (i j k : Z) :
  ToLower (Look cfg) <> "tealorange"%string ->
  ToLower (Look cfg) <> "warmvintage"%string ->
  sample cfg i j k
  = let e := ExposureOffset cfg in
    let x := normalize (Size cfg) in
    let '(r, g, b) :=
      rec2020ToRec709 (appleLogToLinear (x i) e) (appleLogToLinear (x j) e)
                      (appleLogToLinear (x k) e) in
    (rec709OETF r, rec709OETF g, rec709OETF b).
Proof.
  intros Hteal Hwarm. unfold sample, grade.
  apply String.eqb_neq in Hteal, Hwarm.
  change (@decode R _ _) with (@appleLogToLinear R _ _).
  cbv zeta. destruct (rec2020ToRec709 _ _ _) as [[r g] b].
  now rewrite Hteal, Hwarm.
Qed.

Lemma normalize_first (size : Z) : normalize size 0 = 0.
Proof. unfold normalize. cbn [of_int fdiv Float64_R]. unfold Rdiv. lra. Qed.

Lemma normalize_last (size : Z) : (2 <= size)%Z -> normalize size (size - 1) = 1.
Proof.
  intros Hsize. unfold normalize. cbn [of_int fdiv Float64_R].
  apply Rdiv_diag. apply not_0_IZR. lia.
Qed.

Lemma normalize_nonneg (size i : Z) :
  (2 <= size)%Z -> (0 <= i)%Z -> 0 <= normalize size i.
Proof.
  intros Hsize Hi. unfold normalize. cbn [of_int fdiv Float64_R].
  apply Rmult_le_pos; [now apply IZR_le|].
  apply Rlt_le, Rinv_0_lt_compat. apply IZR_lt. lia.
Qed.

End Ungraded.

(** X9.  On the reals, for a size of at least 2 and a look that selects
    no grade, the first data line renders [(0, 0, 0)] under every
    exposure offset, and the last one renders [(1, 1, 1)] when the
    exposure offset is at least [1]. *)
Theorem X_black_and_white_endpoints :
  forall (P : Fmt R) (U : Unicode) (cfg : Config R),
    (2 <= Size cfg <= int_max)%Z ->
    ToLower (Look cfg) <> "tealorange"%string ->
    ToLower (Look cfg) <> "warmvintage"%string ->
    codeLine cfg (0, 0, 0)%Z = dataLine (0, 0, 0) /\
    (1 <= ExposureOffset cfg ->
     let last := (Size cfg - 1)%Z in
     codeLine cfg (last, last, last) = dataLine (1, 1, 1)).
Proof.
  intros P U cfg Hsize Hteal Hwarm. split.
  - rewrite codeLine_sample by assumption.
    rewrite ungraded_sample by assumption. cbv zeta.
    rewrite normalize_first, decode_zero.
    rewrite gamut_corner by (left; reflexivity).
    now rewrite OETF_zero.
  - intros Hexp last. unfold last.
    rewrite codeLine_sample by assumption.
    rewrite ungraded_sample by assumption. cbv zeta.
    rewrite normalize_last by lia.
    rewrite decode_saturates by lra.
    rewrite gamut_corner by (right; reflexivity).
    now rewrite OETF_one.
Qed.

(** X10.  On the reals, for a size of at least 2, an exposure offset
    [>= 0] and a look that selects no grade, the line of a grid point
    [(i, i, i)] renders three equal values of [[0, 1]]. *)
Theorem X_neutral_axis_stays_neutral :
  forall (P : Fmt R) (U : Unicode) (cfg : Config R) (i : Z),
    (2 <= Size cfg <= int_max)%Z ->
    0 <= ExposureOffset cfg ->
    ToLower (Look cfg) <> "tealorange"%string ->
    ToLower (Look cfg) <> "warmvintage"%string ->
    (0 <= i < Size cfg)%Z ->
    exists c : R, 0 <= c <= 1 /\ codeLine cfg (i, i, i) = dataLine (c, c, c).
Proof.
  intros P U cfg i Hsize Hexp Hteal Hwarm Hi.
  pose proof (decode_range (normalize (Size cfg) i) (ExposureOffset cfg)
                (normalize_nonneg _ _ (proj1 Hsize) (proj1 Hi)) Hexp) as Hlin.
  exists (rec709OETF (appleLogToLinear (normalize (Size cfg) i) (ExposureOffset cfg))).
  split; [now apply OETF_range|].
  rewrite codeLine_sample by assumption.
  rewrite ungraded_sample by assumption. cbv zeta.
  now rewrite gamut_gray.
Qed.

Local Open Scope Z_scope.


(** ** Degenerate and default grid sizes *)

Lemma loop_indices_nonpositive (n : Z) : n <= 0 -> loop_indices n = [].
Proof.
  intros Hn. unfold loop_indices. now replace (Z.to_nat n) with 0%nat by lia.
Qed.

Lemma gridPoints_nonpositive (size : Z) : size <= 0 -> gridPoints size = [].
Proof. intros Hsize. unfold gridPoints. now rewrite loop_indices_nonpositive. Qed.

(** X11.  For a size [<= 0] the loops do not run: the text is the comment
    line and the header line, which prints the size as it is. *)
Theorem X_nonpositive_size_header_only :
  forall (F : Type) (A : Float64 F) (M : Math F) (P : Fmt F) (U : Unicode)
         (cfg : Config F),
    Size cfg <= 0 ->
    generateLUT cfg = (commentLine ++ headerLine (Size cfg))%string.
Proof.
  intros F A M P U cfg Hsize.
  rewrite generateLUT_lines, gridPoints_nonpositive by assumption.
  cbn [map join fold_right]. now rewrite append_nil_r.
Qed.

Lemma nan_mul (e : float) : (nan * e)%float = nan.
Proof.
  apply Prim2SF_inj. rewrite mul_spec.
  change (Prim2SF nan) with S754_nan. destruct (Prim2SF e); reflexivity.
Qed.

Section SizeOne.

Context (M : Math float) (U : Unicode) (Hagree : Pow_agrees M).

Lemma decode_nan (e : float) : appleLogToLinear nan e = nan.
Proof.
  unfold appleLogToLinear. cbn [fmul fmin lit Float64_binary64].
  rewrite nan_mul. pow_documented Hagree. reflexivity.
Qed.

Lemma OETF_nan : rec709OETF nan = nan.
Proof.
  unfold rec709OETF. cbv -[Pow]. pow_documented Hagree. reflexivity.
Qed.

Lemma size_one_line (cfg : Config float) :
  Size cfg = 1 -> codeLine cfg (0, 0, 0) = ("NaN NaN NaN" ++ newline)%string.
Proof.
  intros Hsize. unfold codeLine, writeSample. rewrite Hsize.
  change (of_int 0 / of_int (int_sub 1 1))%go with nan.
  rewrite decode_nan.
  change (rec2020ToRec709 nan nan nan) with (nan, nan, nan).
  cbv beta iota zeta. rewrite OETF_nan.
  destruct (String.eqb _ "tealorange"); [reflexivity|].
  destruct (String.eqb _ "warmvintage"); reflexivity.
Qed.

End SizeOne.

(** X13.  On binary64, for a size of 1 the index is divided by [0]: the
    text is the comment line, the header [LUT_3D_SIZE 1] and the one
    line [NaN NaN NaN], whatever the exposure offset and the look. *)
Theorem X_size_one_is_one_NaN_line :
  forall (M : Math float) (U : Unicode) (cfg : Config float),
    Pow_agrees M -> Size cfg = 1 ->
    generateLUT cfg
    = (commentLine ++ ("LUT_3D_SIZE 1" ++ newline) ++ "NaN NaN NaN" ++ newline)%string.
Proof.
  intros M U cfg Hagree Hsize.
  rewrite generateLUT_lines, Hsize.
  change (gridPoints 1) with [(0, 0, 0)]. cbn [map].
  rewrite (size_one_line M U Hagree) by assumption. reflexivity.
Qed.

(** ** The text splits back into its lines and fields *)

Section Splitting.

Local Open Scope string_scope.

Lemma free_of_app (c : ascii) (s t : string) :
  free_of c (s ++ t) = free_of c s && free_of c t.
Proof.
  induction s as [|a s IH]; [reflexivity|].
  cbn [append]. unfold free_of in *. cbn [string_forallb].
  now rewrite IH, andb_assoc.
Qed.

Lemma split_on_free (sep : ascii) (s : string) :
  free_of sep s = true -> split_on sep s = [s].
Proof.
  induction s as [|a s IH]; intros Hfree; [reflexivity|].
  unfold free_of in Hfree. cbn [string_forallb] in Hfree.
  apply andb_prop in Hfree as [Ha Hs]. apply negb_true_iff in Ha.
  cbn [split_on]. rewrite Ha. now rewrite (IH Hs).
Qed.

Lemma split_on_app (sep : ascii) (s t : string) :
  free_of sep s = true ->
  split_on sep (s ++ String sep t) = s :: split_on sep t.
Proof.
  induction s as [|a s IH]; intros Hfree.
  - cbn [append split_on]. now rewrite Ascii.eqb_refl.
  - unfold free_of in Hfree. cbn [string_forallb] in Hfree.
    apply andb_prop in Hfree as [Ha Hs]. apply negb_true_iff in Ha.
    cbn [append split_on]. rewrite Ha. now rewrite (IH Hs).
Qed.

Lemma digits_free_of (c : ascii) (s : string) :
  is_digit c = false -> all_digits s = true -> free_of c s = true.
Proof.
  intros Hc. induction s as [|a s IH]; intros Hs; [reflexivity|].
  unfold all_digits in Hs. cbn [string_forallb] in Hs.
  apply andb_prop in Hs as [Ha Hs].
  unfold free_of. cbn [string_forallb]. fold (free_of c s). rewrite (IH Hs).
  rewrite andb_true_r. apply negb_true_iff, Ascii.eqb_neq.
  intros ->. congruence.
Qed.

Lemma Sprintf_d_free_of (c : ascii) (z : Z) :
  separator c -> free_of c (Sprintf_d z) = true.
Proof.
  intros Hc.
  assert (is_digit c = false) as Hdigit by (destruct Hc as [-> | ->]; reflexivity).
  destruct z as [|p|p].
  - destruct Hc as [-> | ->]; reflexivity.
  - apply digits_free_of; [assumption|]. now apply Sprintf_d_digits.
  - unfold Sprintf_d. cbn [Z.to_int NilZero.string_of_int].
    unfold free_of. cbn [string_forallb].
    replace (negb (Ascii.eqb "-" c)) with true
      by (destruct Hc as [-> | ->]; reflexivity).
    cbn [andb]. apply digits_free_of; [assumption|].
    pose proof (string_of_uint_digits (Pos.to_uint p)) as Hd.
    unfold NilZero.string_of_uint. destruct (Pos.to_uint p); first [reflexivity | exact Hd].
Qed.

Lemma fixed6_free_of (c : ascii) (neg : bool) (n : Z) :
  separator c -> 0 <= n -> free_of c (fixed6 neg n) = true.
Proof.
  intros Hc Hn.
  assert (is_digit c = false) as Hdigit by (destruct Hc as [-> | ->]; reflexivity).
  unfold fixed6. rewrite !free_of_app.
  rewrite Sprintf_d_free_of by assumption.
  rewrite (digits_free_of c (frac6 _) Hdigit) by apply frac6_digits.
  destruct neg, Hc as [-> | ->]; reflexivity.
Qed.

Lemma Sprintf_6f_free_of (c : ascii) (x : float) :
  separator c -> free_of c (Sprintf_6f x) = true.
Proof.
  intros Hc. cbn [Sprintf_6f Fmt_binary64]. unfold FormatFloat_f6.
  destruct (Prim2SF x) as [s|[|]| |s m e];
    try (destruct Hc as [-> | ->]; reflexivity).
  - now apply fixed6_free_of.
  - apply fixed6_free_of; [assumption | apply micros_nonneg].
Qed.

Lemma dataRow_fields (t : float * float * float) :
  split_on " " (dataRow t)
  = let '(r, g, b) := t in [Sprintf_6f r; Sprintf_6f g; Sprintf_6f b].
Proof.
  destruct t as [[r g] b]. unfold dataRow.
  assert (separator " ") as Hsep by (now left).
  cbn [append]. rewrite split_on_app by now apply Sprintf_6f_free_of.
  rewrite split_on_app by now apply Sprintf_6f_free_of.
  now rewrite split_on_free by now apply Sprintf_6f_free_of.
Qed.

Lemma dataRow_free_of_line_feed (t : float * float * float) :
  free_of line_feed (dataRow t) = true.
Proof.
  destruct t as [[r g] b]. unfold dataRow.
  assert (separator line_feed) as Hsep by (now right).
  rewrite !free_of_app, !Sprintf_6f_free_of by assumption. reflexivity.
Qed.

Lemma dataLine_dataRow (t : float * float * float) :
  dataLine t = dataRow t ++ newline.
Proof.
  destruct t as [[r g] b]. unfold dataLine, dataRow.
  now rewrite !append_assoc.
Qed.

Lemma newline_app (s : string) : newline ++ s = String line_feed s.
Proof. reflexivity. Qed.

Lemma split_rows (ts : list (float * float * float)) :
  split_on line_feed (join (map dataLine ts)) = (map dataRow ts ++ [""])%list.
Proof.
  induction ts as [|t ts IH]; [reflexivity|].
  cbn [map join fold_right app]. fold (join (map dataLine ts)).
  rewrite dataLine_dataRow, append_assoc.
  change (newline ++ join (map dataLine ts))
    with (String line_feed (join (map dataLine ts))).
  rewrite split_on_app by apply dataRow_free_of_line_feed.
  now rewrite IH.
Qed.

End Splitting.

Lemma codeLine_codeTriple (M : Math float) (U : Unicode) (cfg : Config float)
    (p : Z * Z * Z) :
  codeLine cfg p = dataLine (codeTriple M U cfg p).
Proof.
  destruct p as [[i j] k]. unfold codeLine, codeTriple, writeSample, WriteString, grade, dataLine.
  destruct (rec2020ToRec709 _ _ _) as [[convR convG] convB].
  destruct (String.eqb _ "tealorange"); [reflexivity|].
  destruct (String.eqb _ "warmvintage"); reflexivity.
Qed.

Lemma split_document (size : Z) (triples : list (float * float * float)) :
  split_on line_feed
    (commentLine ++ headerLine size ++ join (map dataLine triples))%string
  = ("# Generated Cinematic LUT for Apple Log to Rec.709 conversion"
     :: ("LUT_3D_SIZE " ++ Sprintf_d size)
     :: map dataRow triples ++ [EmptyString])%string%list.
Proof.
  unfold commentLine, headerLine. rewrite !append_assoc, !newline_app.
  rewrite split_on_app by reflexivity.
  rewrite <- append_assoc.
  rewrite split_on_app.
  - now rewrite split_rows.
  - rewrite free_of_app, Sprintf_d_free_of by (now right). reflexivity.
Qed.

(** X12.  On binary64, a config file that parses to a size [<= 0] is
    written as a 17-point LUT: the data handed to [os.WriteFile] are the
    comment line, the header [LUT_3D_SIZE 17] and the lines of the 4913
    triples that the loops compute from the config with its defaults;
    cut at its newlines the text is the comment, the header, 4913 rows
    of three rendered values and nothing after the last newline. *)
Theorem X_unset_size_gives_17_grid :
  forall (M : Math float) (U : Unicode)
         (ReadFile : string -> option string)
         (Unmarshal : string -> option (Config float))
         (IsAbs : string -> bool) (Join : string -> string -> string)
         (WriteFile : string -> string -> bool)
         (configPath outputDir raw : string) (c : Config float),
    ReadFile configPath = Some raw -> Unmarshal raw = Some c -> Size c <= 0 ->
    let triples := map (codeTriple M U (setDefaults c)) (gridPoints 17) in
    let lutData :=
      (commentLine ++ ("LUT_3D_SIZE 17" ++ newline) ++ join (map dataLine triples))%string in
    List.length triples = 4913%nat /\
    split_on line_feed lutData
    = ("# Generated Cinematic LUT for Apple Log to Rec.709 conversion"
       :: "LUT_3D_SIZE 17" :: map dataRow triples ++ [EmptyString])%string%list /\
    exists outFileName : string,
      let result :=
        processConfigFile ReadFile Unmarshal IsAbs Join WriteFile configPath outputDir in
      result = Written outFileName lutData \/ result = WriteError outFileName lutData.
Proof.
  intros M U ReadFile Unmarshal IsAbs Join WriteFile configPath outputDir raw c
         Hread Hparse Hsize triples lutData.
  assert (Size (setDefaults c) = 17) as Hdefault.
  { cbn [setDefaults Size]. apply Z.leb_le in Hsize. now rewrite Hsize. }
  split; [unfold triples; now rewrite length_map, gridPoints_length|].
  split; [exact (split_document 17 triples)|].
  unfold processConfigFile. rewrite Hread, Hparse.
  rewrite generateLUT_lines, Hdefault.
  rewrite (map_ext _ _ (codeLine_codeTriple M U (setDefaults c))), <- map_map.
  fold triples. change (headerLine 17) with ("LUT_3D_SIZE 17" ++ newline)%string.
  fold lutData.
  match goal with
  | |- context [WriteFile ?name _] => exists name; destruct (WriteFile name _)
  end; [left | right]; reflexivity.
Qed.

(** X14.  On binary64 and for every config, cutting the text at its
    newlines gives back the comment, the header and one row for each of
    the [size^3] triples written, with nothing after the last newline;
    cutting a row at its spaces gives back the three rendered values. *)
Theorem X_text_splits_into_lines_and_fields :
  forall (M : Math float) (U : Unicode) (cfg : Config float),
    exists triples : list (float * float * float),
      generateLUT cfg
      = (commentLine ++ headerLine (Size cfg) ++ join (map dataLine triples))%string /\
      List.length triples = Z.to_nat (Size cfg ^ 3) /\
      split_on line_feed (generateLUT cfg)
      = ("# Generated Cinematic LUT for Apple Log to Rec.709 conversion"
         :: ("LUT_3D_SIZE " ++ Sprintf_d (Size cfg))
         :: map dataRow triples ++ [EmptyString])%string%list /\
      Forall (fun t => split_on " " (dataRow t)
                       = let '(r, g, b) := t in
                         [Sprintf_6f r; Sprintf_6f g; Sprintf_6f b])
             triples.
Proof.
  intros M U cfg.
  assert (generateLUT cfg
          = (commentLine ++ headerLine (Size cfg)
             ++ join (map dataLine (map (codeTriple M U cfg) (gridPoints (Size cfg)))))%string)
    as Htext.
  { rewrite generateLUT_lines.
    now rewrite (map_ext _ _ (codeLine_codeTriple M U cfg)), <- map_map. }
  exists (map (codeTriple M U cfg) (gridPoints (Size cfg))). repeat split.
  - exact Htext.
  - now rewrite length_map, gridPoints_length.
  - rewrite Htext.
    unfold commentLine, headerLine. rewrite !append_assoc, !newline_app.
    rewrite split_on_app by reflexivity.
    rewrite <- append_assoc.
    rewrite split_on_app.
    + now rewrite split_rows.
    + rewrite free_of_app, Sprintf_d_free_of by (now right). reflexivity.
  - apply Forall_forall. intros t _. apply dataRow_fields.
Qed.

(** ** [setDefaults] applied twice *)

Lemma default_float_fixed (d x : float) :
  (d =? 0)%float = false ->
  ((if (x =? 0)%float then d else x) = x <-> (x =? 0)%float = false).
Proof.
  intros Hd. destruct (x =? 0)%float eqn:Hx; split; intros H;
    try reflexivity; try discriminate.
  subst x. congruence.
Qed.

Lemma default_float_again (d x : float) :
  (d =? 0)%float = false ->
  let y := if (x =? 0)%float then d else x in
  (if (y =? 0)%float then d else y) = y.
Proof.
  intros Hd. cbv zeta. destruct (x =? 0)%float eqn:Hx; [now rewrite Hd | now rewrite Hx].
Qed.

Lemma default_string_fixed (d x : string) :
  d <> EmptyString ->
  ((if String.eqb x EmptyString then d else x) = x <-> x <> EmptyString).
Proof.
  intros Hd. destruct (String.eqb_spec x EmptyString) as [-> | Hx]; split; intros H;
    try reflexivity; try assumption; congruence.
Qed.

Lemma default_string_again (d x : string) :
  d <> EmptyString ->
  let y := if String.eqb x EmptyString then d else x in
  (if String.eqb y EmptyString then d else y) = y.
Proof.
  intros Hd. cbv zeta. destruct (String.eqb_spec x EmptyString) as [-> | Hx].
  - apply String.eqb_neq in Hd. now rewrite Hd.
  - apply String.eqb_neq in Hx. now rewrite Hx.
Qed.

Lemma default_size_fixed (x : Z) : (if x <=? 0 then 17 else x) = x <-> 0 < x.
Proof. destruct (Z.leb_spec x 0); split; intros; lia. Qed.

Lemma default_size_again (x : Z) :
  let y := if x <=? 0 then 17 else x in (if y <=? 0 then 17 else y) = y.
Proof. cbv zeta. destruct (Z.leb_spec x 0) as [H|H]; [reflexivity|]. apply Z.leb_gt in H. now rewrite H. Qed.

(** X15.  On binary64, [setDefaults] applied twice is [setDefaults]
    applied once, and it leaves a config as it is exactly when the size
    is positive, the two tints and the exposure offset are not [== 0],
    and the output name and the look are not empty. *)
Theorem X_setDefaults_idempotent_fixed_points :
  forall c : Config float,
    setDefaults (setDefaults c) = setDefaults c /\
    (setDefaults c = c <->
     0 < Size c /\ (RedTint c =? 0)%float = false /\ (BlueTint c =? 0)%float = false /\
     Output c <> EmptyString /\ Look c <> EmptyString /\
     (ExposureOffset c =? 0)%float = false).
Proof.
  intros [size redTint blueTint output look exposure].
  unfold setDefaults. cbn [Size RedTint BlueTint Output Look ExposureOffset].
  cbn [feqb lit Float64_binary64]. change (lit64 0) with 0%float.
  split.
  - f_equal.
    + apply default_size_again.
    + now apply default_float_again.
    + now apply default_float_again.
    + now apply default_string_again.
    + now apply default_string_again.
    + now apply default_float_again.
  - split.
    + intros Heq. injection Heq as Hs Hr Hb Ho Hl He.
      apply default_size_fixed in Hs.
      apply default_float_fixed in Hr, Hb, He; try reflexivity.
      apply default_string_fixed in Ho, Hl; try discriminate.
      repeat split; assumption.
    + intros (Hs & Hr & Hb & Ho & Hl & He). f_equal.
      * now apply default_size_fixed.
      * now apply default_float_fixed.
      * now apply default_float_fixed.
      * now apply default_string_fixed.
      * now apply default_string_fixed.
      * now apply default_float_fixed.
Qed.

Import Main.

(** ** [main]: the walk over the config directory *)

Section MainFacts.

Variable World : Type.
Variable process : string -> World -> World.

Lemma Walk_clean (visits : list visit) (w : World) :
  Forall (fun v => err v = None) visits ->
  Walk (walkFn process) visits w = (processAll process visits w, None).
Proof.
  revert w. induction visits as [|v rest IH]; intros w Hclean; [reflexivity|].
  inversion Hclean as [|? ? Hv Hrest]; subst.
  cbn [Walk]. unfold walkFn at 1. rewrite Hv.
  unfold processAll. cbn [filter]. unfold isConfig at 1.
  destruct (negb (IsDir (info v)) && HasSuffix (Name (info v)) ".json");
    cbn [fold_left]; now rewrite IH.
Qed.

Lemma processAll_app (pre post : list visit) (w : World) :
  processAll process (pre ++ post) w
  = processAll process post (processAll process pre w).
Proof. unfold processAll. now rewrite filter_app, fold_left_app. Qed.

Lemma Walk_stops (pre post : list visit) (v : visit) (e : string) (w : World) :
  Forall (fun v => err v = None) pre -> err v = Some e ->
  Walk (walkFn process) (pre ++ v :: post) w = (processAll process pre w, Some e).
Proof.
  revert w. induction pre as [|u pre IH]; intros w Hclean Hv.
  - cbn [app Walk]. unfold walkFn. now rewrite Hv.
  - inversion Hclean as [|? ? Hu Hpre]; subst.
    cbn [app Walk]. unfold walkFn at 1. rewrite Hu.
    unfold processAll. cbn [filter]. unfold isConfig at 1.
    destruct (negb (IsDir (info u)) && HasSuffix (Name (info u)) ".json");
      cbn [fold_left]; now rewrite IH.
Qed.

Lemma string_length_app (s t : string) :
  String.length (s ++ t) = (String.length s + String.length t)%nat.
Proof. induction s as [|c s IH]; cbn; [reflexivity | now rewrite IH]. Qed.

Lemma substring_drop (s t : string) :
  substring (String.length s) (String.length t) (s ++ t) = t.
Proof.
  induction s as [|c s IH]; cbn [String.length append substring].
  - induction t as [|c t IH]; cbn; [reflexivity | now rewrite IH].
  - exact IH.
Qed.

Lemma substring_all (s : string) : substring 0 (String.length s) s = s.
Proof. induction s as [|c s IH]; cbn; [reflexivity | now rewrite IH]. Qed.

Lemma substring_split (n : nat) (s : string) :
  (n <= String.length s)%nat ->
  s = (substring 0 n s ++ substring n (String.length s - n) s)%string.
Proof.
  revert s. induction n as [|n IH]; intros s Hn.
  - rewrite Nat.sub_0_r, substring_all. now destruct s.
  - destruct s as [|c s]; [cbn in Hn; lia|].
    cbn [String.length] in *. cbn [substring append Nat.sub].
    f_equal. apply IH. lia.
Qed.

Lemma HasSuffix_spec (s suffix : string) :
  HasSuffix s suffix = true <-> exists stem : string, s = (stem ++ suffix)%string.
Proof.
  unfold HasSuffix. split.
  - intros H. apply andb_prop in H as [Hlen Heq].
    apply Nat.leb_le in Hlen. apply String.eqb_eq in Heq.
    exists (substring 0 (String.length s - String.length suffix) s).
    pose proof (substring_split (String.length s - String.length suffix) s) as Hsplit.
    replace (String.length s - (String.length s - String.length suffix))%nat
      with (String.length suffix) in Hsplit by lia.
    rewrite Heq in Hsplit. apply Hsplit. lia.
  - intros [stem ->]. rewrite string_length_app.
    replace (String.length stem + String.length suffix - String.length suffix)%nat
      with (String.length stem) by lia.
    rewrite substring_drop, String.eqb_refl.
    rewrite andb_true_r. apply Nat.leb_le. lia.
Qed.

End MainFacts.

(** X16.  When the output directory can be made and the walk meets no
    error, [main] returns after processing, in the order of the walk,
    exactly the entries that are not directories and whose name ends in
    [.json]; what became of one config never reaches the walk. *)
Theorem X_main_processes_configs_in_order :
  forall (World : Type) (process : string -> World -> World)
         (MkdirAll : World -> World * option string)
         (visits : list visit) (w w1 : World),
    MkdirAll w = (w1, None) ->
    Forall (fun v => err v = None) visits ->
    main process MkdirAll visits w = (processAll process visits w1, Returned) /\
    forall v : visit,
      isConfig v = true <->
      IsDir (info v) = false /\
      exists stem : string, Name (info v) = (stem ++ ".json")%string.
Proof.
  intros World process MkdirAll visits w w1 Hmkdir Hclean. split.
  - unfold main. rewrite Hmkdir. now rewrite Walk_clean.
  - intros v. unfold isConfig. rewrite andb_true_iff, negb_true_iff.
    now rewrite HasSuffix_spec.
Qed.

(** X17.  [main] ends in [log.Fatalf] when the output directory cannot be
    made, before any config is processed, and at the first error that
    the walk reports, after the configs met before it and none of those
    after it. *)
Theorem X_main_stops_at_first_error :
  forall (World : Type) (process : string -> World -> World)
         (MkdirAll : World -> World * option string)
         (w w1 : World) (e : string),
    (MkdirAll w = (w1, Some e) ->
     forall visits : list visit,
       main process MkdirAll visits w = (w1, Fatal e)) /\
    (MkdirAll w = (w1, None) ->
     forall (pre post : list visit) (v : visit),
       Forall (fun u => err u = None) pre -> err v = Some e ->
       main process MkdirAll (pre ++ v :: post) w
       = (processAll process pre w1, Fatal e)).
Proof.
  intros World process MkdirAll w w1 e. split.
  - intros Hmkdir visits. unfold main. now rewrite Hmkdir.
  - intros Hmkdir pre post v Hclean Hv. unfold main. rewrite Hmkdir.
    now rewrite (Walk_stops World process pre post v e).
Qed.

(** ** These statements at concrete inputs *)

Import MoreExamples.

Lemma X1_witness :
  (0 <= appleLogToLinear (/ 2) 3 <= 1 /\ appleLogToLinear (/ 2) 3 = 1)%R.
Proof.
  pose proof (X_decode_range_and_saturation (/ 2)%R 3%R ltac:(lra) ltac:(lra))
    as [Hrange Hsat].
  split; [exact Hrange | apply Hsat; lra].
Defined.

Lemma X2_witness : (0 <= rec709OETF (/ 2) <= 1)%R.
Proof. apply (X_OETF_unit_interval (/ 2)%R). lra. Defined.

Lemma X3_witness : (rec709OETF 0.01 <= rec709OETF 0.5)%R.
Proof. apply X_OETF_monotone. lra. Defined.

Lemma X4_witness : (rec709OETF 0.017 < 0.081 \/ 0.0812 <= rec709OETF 0.017)%R.
Proof. apply (X_OETF_jump_at_breakpoint 0.017%R). lra. Defined.

Lemma X7_witness :
  (let '(r', g', b') := applyWarmVintage 1 1 1 in
   0.05 <= r' <= 0.996 /\ 0.05 <= g' <= 0.951 /\ 0.05 <= b' <= 0.906)%R.
Proof. apply (X_warmvintage_on_unit_cube 1 1 1)%R; lra. Defined.

Lemma five_points_size : 2 <= Size five_points <= int_max.
Proof. change (2 <= 5 <= 2 ^ 63 - 1). lia. Qed.

Lemma five_points_ungraded :
  @ToLower Unicode_unused (Look five_points) <> "tealorange"%string /\
  @ToLower Unicode_unused (Look five_points) <> "warmvintage"%string.
Proof. split; intros H; cbv in H; discriminate H. Qed.

Lemma X9_witness :
  @codeLine R _ _ Fmt_blank Unicode_unused five_points (0, 0, 0)
  = @dataLine R Fmt_blank (0, 0, 0)%R.
Proof.
  exact (proj1 (X_black_and_white_endpoints Fmt_blank Unicode_unused five_points
                  five_points_size
                  (proj1 five_points_ungraded) (proj2 five_points_ungraded))).
Defined.

Lemma five_points_exposure : (0 <= ExposureOffset five_points)%R.
Proof. change (0 <= Q2R 2)%R. unfold Q2R. cbn. lra. Qed.

Lemma X10_witness :
  exists c : R,
    (0 <= c <= 1)%R /\
    @codeLine R _ _ Fmt_blank Unicode_unused five_points (2, 2, 2)
    = @dataLine R Fmt_blank (c, c, c).
Proof.
  apply (X_neutral_axis_stays_neutral Fmt_blank Unicode_unused five_points 2
           five_points_size five_points_exposure
           (proj1 five_points_ungraded) (proj2 five_points_ungraded)).
  change (0 <= 2 < 5). lia.
Defined.

Lemma X11_witness :
  @generateLUT float _ Math_documented _ Unicode_unused Examples.unset
  = (commentLine ++ headerLine (-4))%string.
Proof.
  apply X_nonpositive_size_header_only. change (-4 <= 0). lia.
Defined.

Lemma X12_witness :
  exists outFileName : string,
    @processConfigFile float _ Math_documented _ Unicode_unused
      (fun _ => Some "{}"%string) (fun _ => Some Examples.unset)
      (fun _ => false) (fun dir name => (dir ++ "/" ++ name)%string)
      (fun _ _ => true) "configs/empty.json" "output"
    = Written outFileName
        (commentLine ++ ("LUT_3D_SIZE 17" ++ newline)
         ++ join (map dataLine
                    (map (codeTriple Math_documented Unicode_unused
                            (setDefaults Examples.unset))
                         (gridPoints 17))))%string.
Proof.
  destruct (X_unset_size_gives_17_grid Math_documented Unicode_unused
              (fun _ => Some "{}"%string) (fun _ => Some Examples.unset)
              (fun _ => false) (fun dir name => (dir ++ "/" ++ name)%string)
              (fun _ _ => true) "configs/empty.json" "output" "{}" Examples.unset
              eq_refl eq_refl)
    as (_ & _ & outFileName & Hresult).
  - change (-4 <= 0). lia.
  - exists outFileName.
    destruct Hresult as [Hwritten | Hfailed]; [exact Hwritten | discriminate Hfailed].
Defined.

Lemma X13_witness :
  @generateLUT float _ Math_documented _ Unicode_unused
    (mkConfig 1 (lit 1.05) (lit 0.95) "output.cube" "warmVintage" (lit 1.0))
  = (commentLine ++ ("LUT_3D_SIZE 1" ++ newline) ++ "NaN NaN NaN" ++ newline)%string.
Proof.
  apply X_size_one_is_one_NaN_line; [exact Math_documented_agrees | reflexivity].
Defined.

Lemma X16_witness :
  main processed_log mkdir_ok small_tree []
  = (["configs/a.json"; "configs/old.json/b.json"]%string, Returned).
Proof.
  apply (X_main_processes_configs_in_order (list string) processed_log mkdir_ok
           small_tree [] []).
  - reflexivity.
  - repeat constructor.
Defined.

Lemma X17_witness :
  main processed_log mkdir_denied small_tree [] = ([], Fatal "permission denied") /\
  main processed_log mkdir_ok
       ([mkVisit "configs" (mkFileInfo "configs" true) None;
         mkVisit "configs/a.json" (mkFileInfo "a.json" false) None]
        ++ unreadable :: small_tree) []
  = (["configs/a.json"]%string, Fatal "permission denied").
Proof.
  destruct (X_main_stops_at_first_error (list string) processed_log mkdir_denied
              [] [] "permission denied") as [Hdenied _].
  destruct (X_main_stops_at_first_error (list string) processed_log mkdir_ok
              [] [] "permission denied") as [_ Hwalk].
  split.
  - apply Hdenied. reflexivity.
  - apply (Hwalk eq_refl); [repeat constructor | reflexivity].
Defined.
